(** * AudioDiffusionFid: the evaluator of [codes/trainer/eval/audio_diffusion_fid.py]

    A shallow embedding of the evaluator class: Python integers are [Z],
    discrete code sequences are [list Z], dictionaries are [gmap string _],
    exceptions are an explicit result type, and the mutable state that
    [perform_eval] touches (generator state, train/eval flag of the model,
    devices of the helper modules, files written) is threaded through a small
    state-and-exception monad. *)

From Stdlib Require Import ZArith Lia Ascii.
From stdpp Require Import gmap strings list fin_maps pretty.

Local Open Scope Z_scope.

(** ** Python results and integer arithmetic *)

Inductive exn : Type :=
  | ZeroDivisionError
  | IndexError
  | AttributeError
  | KeyError
  | ValueError
  | RuntimeError
  | OSError.

Inductive Res (A : Type) : Type :=
  | Ok (a : A)
  | Raise (e : exn).
Arguments Ok {A} a.
Arguments Raise {A} e.

Definition res_bind {A B} (r : Res A) (k : A -> Res B) : Res B :=
  match r with
  | Ok a => k a
  | Raise e => Raise e
  end.

Definition is_ok {A} (r : Res A) : bool :=
  match r with Ok _ => true | Raise _ => false end.

(** [a // b] on Python integers: floor division, [ZeroDivisionError] on a
    zero divisor.  [Z.div] rounds towards minus infinity as Python does. *)
Definition floordiv (a b : Z) : Res Z :=
  if b =? 0 then Raise ZeroDivisionError else Ok (a / b).

(** [list(range(start, stop, step))] for a positive step: the range has
    [(stop - start + step - 1) // step] elements (none when [stop <= start]),
    the [k]-th being [start + k * step]. *)
Definition range_len (start stop step : Z) : nat :=
  if start <? stop then Z.to_nat ((stop - start + step - 1) / step) else O.

Definition py_range (start stop step : Z) : list Z :=
  map (fun k : nat => start + Z.of_nat k * step) (seq 0 (range_len start stop step)).

(** [l[i]] on a Python list: a negative index counts from the end, and an
    index outside the list raises [IndexError]. *)
Definition list_getitem {A} (l : list A) (i : Z) : Res A :=
  let j := if i <? 0 then i + Z.of_nat (length l) else i in
  if j <? 0 then Raise IndexError
  else match l !! Z.to_nat j with
       | Some a => Ok a
       | None => Raise IndexError
       end.

(** [F.pad(codes, (left, right))] on the last axis of an integer tensor, with
    the default constant fill value 0. *)
Definition F_pad (codes : list Z) (left right : Z) : list Z :=
  replicate (Z.to_nat left) 0 ++ codes ++ replicate (Z.to_nat right) 0.

(** ** Alignment and padding *)

(** Modelled from the spec: [utils.util.ceil_multiple] is imported by the
    evaluator but its body is not part of the sources at hand.  The spec says
    the padded size is the smallest multiple of the alignment multiple that is
    greater than or equal to the output size; the multiples [0, m, 2m, ...]
    are walked upwards and the first one that reaches [base] is returned. *)
Fixpoint first_multiple (fuel : nat) (k base multiple : Z) : Z :=
  match fuel with
  | O => k * multiple
  | S fuel' =>
      if base <=? k * multiple then k * multiple
      else first_multiple fuel' (k + 1) base multiple
  end.

Definition ceil_multiple (base multiple : Z) : Z :=
  first_multiple (Z.to_nat base) 0 base multiple.

(** The block every sampling strategy repeats after it knows its output size
    (lines 66-70, 86-90, 110-114 and 133-137):
<<
    padded_size = ceil_multiple(output_size, multiple)
    padding_added = padded_size - output_size
    padding_needed_for_codes = padding_added // compression_factor
    if padding_needed_for_codes > 0:
        codes = F.pad(codes, (0, padding_needed_for_codes))
>>
    [pad] is the right-padding of whatever the strategy conditions on. *)
Definition padding_needed_for_codes (output_size multiple compression_factor : Z) : Res Z :=
  let padded_size := ceil_multiple output_size multiple in
  let padding_added := padded_size - output_size in
  floordiv padding_added compression_factor.

Definition pad_to_alignment {X} (pad : X -> Z -> X)
    (output_size multiple compression_factor : Z) (codes : X) : Res (Z * X) :=
  let padded_size := ceil_multiple output_size multiple in
  res_bind (padding_needed_for_codes output_size multiple compression_factor)
    (fun padding =>
       let codes := if 0 <? padding then pad codes padding else codes in
       Ok (padded_size, codes)).

Definition pad_codes (codes : list Z) (n : Z) : list Z := F_pad codes 0 n.


(** ** Paths and formatted names *)

(** [str(n)] of a Python integer. *)
Definition str (n : Z) : string := pretty n.

Fixpoint ends_with_slash (s : string) : bool :=
  match s with
  | EmptyString => false
  | String c EmptyString => if decide (c = "/"%char) then true else false
  | String _ rest => ends_with_slash rest
  end.

(** One step of [posixpath.join]: an absolute component replaces what was
    joined so far, a component after an empty path or a trailing slash is
    appended as it is, any other is appended after a slash. *)
Definition join2 (path b : string) : string :=
  if String.prefix "/" b then b
  else if bool_decide (path = "") || ends_with_slash path then path +:+ b
  else path +:+ "/" +:+ b.

(** [os.path.join(a, *p)]. *)
Definition osp_join (a : string) (p : list string) : string :=
  fold_left join2 p a.

(** The f-strings [f"{rank}_{i}_gen.wav"] and [f"{rank}_{i}_real.wav"]. *)
Definition gen_name (rank i : Z) : string := str rank +:+ "_" +:+ str i +:+ "_gen.wav".
Definition real_name (rank i : Z) : string := str rank +:+ "_" +:+ str i +:+ "_real.wav".

(** A string without an underscore and without a slash, as the decimal
    numerals are. *)
Fixpoint plain (s : string) : Prop :=
  match s with
  | EmptyString => True
  | String c rest => c <> "_"%char /\ c <> "/"%char /\ plain rest
  end.

(** ** Configuration, dataset and environment *)

(** One line of the aligned-codes manifest: [(path, text, codes)]. *)
Record Entry : Type := {
  entry_path : string;
  entry_text : string;
  entry_codes : list Z;
}.

(** The [opt_eval] dictionary, one optional field per recognised key. *)
Record OptEval : Type := {
  eval_tsv : option string;
  diffusion_steps : option Z;
  diffusion_schedule : option string;
  conditioning_free : option bool;
  conditioning_free_k : option Z;
  diffusion_type : option string;
}.

(** The [env] dictionary.  [schedule_name] stands for the nested lookup of
    line 36, [env['opt']['steps']['generator']['injectors']['diffusion']]
    followed by [['beta_schedule']['schedule_name']]. *)
Record Env : Type := {
  device : string;
  rank : Z;
  base_path : string;
  step : Z;
  schedule_name : option string;
}.

(** Modelled from the spec: [utils.util.opt_get] is imported by the evaluator
    but its body is not part of the sources at hand.  An option that is absent
    takes the default listed for it. *)
Definition opt_get {A} (v : option A) (dflt : A) : A := default dflt v.

(** The diffuser built by [load_discrete_vocoder_diffuser]. *)
Record Diffuser : Type := {
  desired_diffusion_steps : Z;
  schedule : string;
  enable_conditioning_free_guidance : bool;
  diffuser_conditioning_free_k : Z;
}.

(** A helper module of [self.local_modules] and the device it lives on. *)
Inductive ModuleKind : Type := Dvae | UnivnetVocoder.

Record Module : Type := {
  kind : ModuleKind;
  on_device : string;
}.

(** [mod.to(device)] and [mod.cpu()]. *)
Definition module_to (d : string) (m : Module) : Module :=
  {| kind := kind m; on_device := d |}.
Definition module_cpu (m : Module) : Module := module_to "cpu" m.

(** The four sampling functions [self.diffusion_fn] can be bound to. *)
Inductive Strategy : Type :=
  | perform_diffusion_tts_fn
  | perform_original_diffusion_vocoder_fn
  | perform_diffusion_vocoder_fn
  | perform_diffusion_tts9_mel_from_codes_fn.

(** A Python float literal [mantissa * 10 ^ exponent], such as [1e-7]. *)
Record pyfloat : Type := { mantissa : Z; exponent : Z }.
Definition eps_1e_7 : pyfloat := {| mantissa := 1; exponent := -7 |}.

(** ** External collaborators

    Tensors, the generator state and every model the evaluator drives are
    opaque.  [Backend] lists the calls the file makes on them; a call that can
    raise returns [Res].  Torch keeps one default generator for the CPU and
    one per accelerator: [Rng] is the state of the first, the one
    [torch.get_rng_state] and [torch.set_rng_state] read and write, [CudaRng]
    the state of the others; [torch.manual_seed] reseeds both.  The diffusion
    sampler draws from either: it takes the two states and returns the next
    ones, and it is told whether the model is in training mode.  Building a
    torch module draws its initial weights from the CPU generator: for each
    module the evaluator builds, [.._init] is how building it advances that
    generator, and the loaded module itself is what the checkpoint holds
    ([clip_checkpoint] for [torch.load] followed by [load_state_dict],
    [w2v_pretrained] for [from_pretrained]), given as the function the
    evaluator calls the module through ([get_speech_projection], resp. the
    [loss] of the forward pass).  [load_mel_norms] returns the two of the
    five tensors of [univnet_mel_norms.pth] the evaluator keeps;
    [wav_to_univnet_mel] is the call with [do_normalization=False]. *)
Class Backend : Type := {
  Tensor : Type;
  Rng : Type;
  CudaRng : Type;
  (* torch *)
  seeded : Z -> Rng;
  cuda_seeded : Z -> CudaRng;
  shape : Tensor -> list Z;
  unsqueeze : Tensor -> Z -> Tensor;
  squeeze : Tensor -> Z -> Tensor;
  t_mean : Tensor -> Tensor;
  t_var : Tensor -> Tensor;
  t_sqrt : Tensor -> Tensor;
  t_sub : Tensor -> Tensor -> Tensor;
  t_div : Tensor -> Tensor -> Tensor;
  t_add_float : Tensor -> pyfloat -> Tensor;
  t_div_int : Tensor -> Z -> Tensor;
  t_float : Tensor -> Tensor;
  t_cpu : Tensor -> Tensor;
  t_pad : Tensor -> Z -> Z -> Tensor;
  stack : list Tensor -> Tensor;
  all_reduce : Tensor -> Res Tensor;
  (* torchaudio *)
  resample : Tensor -> Z -> Z -> Tensor;
  torchaudio_save : string -> Tensor -> Z -> Res unit;
  (* os *)
  makedirs : string -> Res unit;
  (* numpy and pytorch_fid *)
  np_mean0 : Tensor -> Tensor;
  np_cov : Tensor -> Tensor;
  calculate_frechet_distance : Tensor -> Tensor -> Tensor -> Tensor -> Res Tensor;
  (* the rest of the repository *)
  load_tsv_aligned_codes : string -> Res (list Entry);
  load_audio : string -> Z -> Res Tensor;
  text_to_sequence : string -> list Z;
  wav_to_mel : Tensor -> Tensor;
  wav_to_univnet_mel : Tensor -> Tensor;
  denormalize_tacotron_mel : Tensor -> Tensor;
  dvae_init : Rng -> Rng;
  load_speech_dvae : Res unit;
  vocoder_init : Rng -> Rng;
  load_univnet_vocoder : Res unit;
  load_mel_norms : Res (Tensor * Tensor);
  convert_mel_to_codes : Module -> Tensor -> Res (list Z);
  dvae_decode : Module -> list Z -> Res Tensor;
  vocoder_inference : Module -> Tensor -> Res Tensor;
  mel_text_clip_init : Rng -> Rng;
  clip_checkpoint : Res (Tensor -> Res Tensor);
  w2v_init : Rng -> Rng;
  w2v_pretrained : Res (Tensor -> list Z -> Res Tensor);
  p_sample_loop : Diffuser -> bool -> list Z -> list (string * (list Z + Tensor)) ->
                  Rng -> CudaRng -> Res Tensor * Rng * CudaRng;
}.

(** What the run does to the outside, in the order it happens. *)
Inductive Event : Type :=
  | EvMakedirs (path : string)
  | EvLoadAudio (path : string)
  | EvSample (output_shape : list Z)
  | EvSave (path : string) (sample_rate : Z)
  | EvAllReduce.

(** The model under test; [alignment_size] is [None] when
    [hasattr(self.model, 'alignment_size')] is false. *)
Record Model : Type := {
  alignment_size : option Z;
}.

Section Evaluator.

Context `{Backend}.

(** ** Mutable state

    [rng] is the state [torch.get_rng_state] reads and [torch.set_rng_state]
    writes, [cuda_rng] the state of the accelerator generators, which those
    two calls do not touch, [model_training] the flag [self.model.train()] / [.eval()] set,
    [local_modules] the dictionary [self.local_modules], [world_size] the
    process group ([None] when [distributed.is_initialized()] is false). *)
Record World : Type := {
  rng : Rng;
  cuda_rng : CudaRng;
  model_training : bool;
  local_modules : gmap string Module;
  world_size : option Z;
  trace : list Event;
}.

Definition M (A : Type) : Type := World -> Res A * World.

Definition ret {A} (a : A) : M A := fun w => (Ok a, w).

Definition bind {A B} (c : M A) (k : A -> M B) : M B :=
  fun w =>
    match c w with
    | (Ok a, w') => k a w'
    | (Raise e, w') => (Raise e, w')
    end.

Definition lift {A} (r : Res A) : M A := fun w => (r, w).

Definition raise {A} (e : exn) : M A := lift (Raise e).

Definition emit (ev : Event) : M unit :=
  fun w => (Ok tt, {| rng := rng w; cuda_rng := cuda_rng w;
                      model_training := model_training w;
                      local_modules := local_modules w; world_size := world_size w;
                      trace := trace w ++ [ev] |}).

Definition get_rng_state : M Rng := fun w => (Ok (rng w), w).

Definition set_rng_state (g : Rng) : M unit :=
  fun w => (Ok tt, {| rng := g; cuda_rng := cuda_rng w;
                      model_training := model_training w;
                      local_modules := local_modules w; world_size := world_size w;
                      trace := trace w |}).

(** The world after [torch.manual_seed(seed)], which seeds the generators of
    all devices. *)
Definition reseed (seed : Z) (w : World) : World :=
  {| rng := seeded seed; cuda_rng := cuda_seeded seed;
     model_training := model_training w;
     local_modules := local_modules w; world_size := world_size w;
     trace := trace w |}.

Definition manual_seed (seed : Z) : M unit := fun w => (Ok tt, reseed seed w).

(** A call that builds a torch module and then loads its weights: building
    draws the initial weights from the CPU generator, whether or not the
    loading that follows returns. *)
Definition build {A} (init : Rng -> Rng) (loaded : Res A) : M A :=
  fun w => (loaded, {| rng := init (rng w); cuda_rng := cuda_rng w;
                       model_training := model_training w;
                       local_modules := local_modules w; world_size := world_size w;
                       trace := trace w |}).

Definition set_model_training (b : bool) : M unit :=
  fun w => (Ok tt, {| rng := rng w; cuda_rng := cuda_rng w; model_training := b;
                      local_modules := local_modules w; world_size := world_size w;
                      trace := trace w |}).

Definition model_eval : M unit := set_model_training false.
Definition model_train : M unit := set_model_training true.

Definition get_local_modules : M (gmap string Module) :=
  fun w => (Ok (local_modules w), w).

Definition set_local_modules (ms : gmap string Module) : M unit :=
  fun w => (Ok tt, {| rng := rng w; cuda_rng := cuda_rng w;
                      model_training := model_training w;
                      local_modules := ms; world_size := world_size w;
                      trace := trace w |}).

Definition get_world_size : M (option Z) := fun w => (Ok (world_size w), w).

End Evaluator.

Declare Scope eval_scope.
Delimit Scope eval_scope with eval.
Notation "x <- c ;; k" := (bind c (fun x => k))
  (at level 100, c at next level, right associativity) : eval_scope.
Notation "c ;;; k" := (bind c (fun _ => k))
  (at level 100, right associativity) : eval_scope.
Local Open Scope eval_scope.

Section Methods.

Context `{Backend}.

(** ** The evaluator object *)
Record Evaluator : Type := {
  model : Model;
  env : Env;
  real_path : string;
  data : list Entry;
  skip : Z;
  diffuser : Diffuser;
  dev : string;
  mel_max : option Tensor;
  mel_min : option Tensor;
  diffusion_fn : option Strategy;
}.

(** [self.local_modules[key]]. *)
Definition local_module (key : string) : M Module :=
  ms <- get_local_modules ;;
  match ms !! key with
  | Some m => ret m
  | None => raise KeyError
  end.

(** [self.local_modules[key] = m]. *)
Definition set_local_module (key : string) (m : Module) : M unit :=
  ms <- get_local_modules ;;
  set_local_modules (<[key := m]> ms).

(** [distributed.is_initialized() and distributed.get_world_size() > 1]. *)
Definition is_distributed (ws : option Z) : bool :=
  match ws with
  | Some n => 1 <? n
  | None => false
  end.

(** [AudioDiffusionFid.__init__] (lines 27-60). *)
Definition __init__ (model : Model) (opt_eval : OptEval) (env : Env) : M Evaluator :=
  real_path <- match eval_tsv opt_eval with
               | Some p => ret p
               | None => raise KeyError
               end ;;
  data <- lift (load_tsv_aligned_codes real_path) ;;
  ws <- get_world_size ;;
  let skip := if is_distributed ws then default 1 ws else 1 in
  let diffusion_steps := opt_get (diffusion_steps opt_eval) 50 in
  let diffusion_schedule :=
    match schedule_name env with
    | Some s => s
    | None => opt_get (diffusion_schedule opt_eval) "cosine"
    end in
  let conditioning_free_diffusion_enabled := opt_get (conditioning_free opt_eval) false in
  let conditioning_free_k := opt_get (conditioning_free_k opt_eval) 1 in
  let diffuser :=
    {| desired_diffusion_steps := diffusion_steps;
       schedule := diffusion_schedule;
       enable_conditioning_free_guidance := conditioning_free_diffusion_enabled;
       diffuser_conditioning_free_k := conditioning_free_k |} in
  let dev := device env in
  let mode := opt_get (diffusion_type opt_eval) "tts" in
  let self mx mn fn :=
    {| model := model; env := env; real_path := real_path; data := data;
       skip := skip; diffuser := diffuser; dev := dev;
       mel_max := mx; mel_min := mn; diffusion_fn := fn |} in
  set_local_modules ∅ ;;;
  if bool_decide (mode = "tts") then
    ret (self None None (Some perform_diffusion_tts_fn))
  else if bool_decide (mode = "original_vocoder") then
    build dvae_init load_speech_dvae ;;;
    set_local_module "dvae" {| kind := Dvae; on_device := "cpu" |} ;;;
    ret (self None None (Some perform_original_diffusion_vocoder_fn))
  else if bool_decide (mode = "vocoder") then
    build dvae_init load_speech_dvae ;;;
    set_local_module "dvae" {| kind := Dvae; on_device := "cpu" |} ;;;
    ret (self None None (Some perform_diffusion_vocoder_fn))
  else if bool_decide (mode = "tts9_mel") then
    norms <- lift load_mel_norms ;;
    let '(mx, mn) := norms in
    build dvae_init load_speech_dvae ;;;
    set_local_module "dvae" {| kind := Dvae; on_device := "cpu" |} ;;;
    build vocoder_init load_univnet_vocoder ;;;
    set_local_module "vocoder" {| kind := UnivnetVocoder; on_device := "cpu" |} ;;;
    ret (self (Some mx) (Some mn) (Some perform_diffusion_tts9_mel_from_codes_fn))
  else
    ret (self None None None).

(** ** Sampling strategies *)

(** [t.shape[-1]]. *)
Definition shape_last (t : Tensor) : Res Z :=
  match last (shape t) with
  | Some n => Ok n
  | None => Raise IndexError
  end.

(** [self.diffuser.p_sample_loop(self.model, output_shape, model_kwargs=...)]:
    the sampler draws from the generators. *)
Definition sample (self : Evaluator) (output_shape : list Z)
    (model_kwargs : list (string * (list Z + Tensor))) : M Tensor :=
  emit (EvSample output_shape) ;;;
  fun w =>
    let '(r, g, c) := p_sample_loop (diffuser self) (model_training w)
                                    output_shape model_kwargs (rng w) (cuda_rng w) in
    (r, {| rng := g; cuda_rng := c; model_training := model_training w;
           local_modules := local_modules w; world_size := world_size w;
           trace := trace w |}).

(** Lines 62-75.  [codes] is the one-dimensional tensor of the dataset
    entry, so [codes.shape[-1]] is its length. *)
Definition perform_diffusion_tts (self : Evaluator) (audio : Tensor) (codes : list Z)
    (text : string) (sample_rate : Z) : M (Tensor * Tensor * Z) :=
  let real_resampled := unsqueeze (resample audio 22050 sample_rate) 0 in
  let aligned_codes_compression_factor := sample_rate * 221 / 11025 in
  let output_size := Z.of_nat (length codes) * aligned_codes_compression_factor in
  padded <- lift (pad_to_alignment pad_codes output_size 2048
                    aligned_codes_compression_factor codes) ;;
  let '(padded_size, codes) := padded in
  let output_shape := [1; 1; padded_size] in
  gen <- sample self output_shape
           [("tokens", inl codes); ("conditioning_input", inr real_resampled)] ;;
  ret (gen, real_resampled, sample_rate).

(** Lines 77-99. *)
Definition perform_original_diffusion_vocoder (self : Evaluator) (audio : Tensor)
    (codes : list Z) (text : string) (sample_rate : Z) : M (Tensor * Tensor * Z) :=
  let mel := wav_to_mel audio in
  dvae <- local_module "dvae" ;;
  mel_codes <- lift (convert_mel_to_codes dvae mel) ;;
  dvae <- local_module "dvae" ;;
  back_to_mel <- lift (dvae_decode dvae mel_codes) ;;
  let orig_audio := audio in
  let real_resampled := unsqueeze (resample audio 22050 sample_rate) 0 in
  output_size <- lift (shape_last real_resampled) ;;
  mel_len <- lift (shape_last back_to_mel) ;;
  aligned_mel_compression_factor <- lift (floordiv output_size mel_len) ;;
  padded <- lift (pad_to_alignment (fun t n => t_pad t 0 n) output_size 2048
                    aligned_mel_compression_factor back_to_mel) ;;
  let '(padded_size, back_to_mel) := padded in
  let output_shape := [1; 1; padded_size] in
  gen <- sample self output_shape
           [("spectrogram", inr back_to_mel);
            ("conditioning_input", inr (unsqueeze orig_audio 0))] ;;
  let real_resampled := unsqueeze (resample (squeeze real_resampled 0) sample_rate 5500) 0 in
  let gen := unsqueeze (resample (squeeze gen 0) sample_rate 5500) 0 in
  ret (gen, real_resampled, 5500).

(** Lines 102-120.  [mel_codes] is a batch of one code sequence, so
    [mel_codes.shape[-1]] is the length of that sequence. *)
Definition perform_diffusion_vocoder (self : Evaluator) (audio : Tensor)
    (codes : list Z) (text : string) (sample_rate : Z) : M (Tensor * Tensor * Z) :=
  let mel := wav_to_mel audio in
  dvae <- local_module "dvae" ;;
  mel_codes <- lift (convert_mel_to_codes dvae mel) ;;
  let text_codes := text_to_sequence text in
  let real_resampled := unsqueeze (resample audio 22050 sample_rate) 0 in
  output_size <- lift (shape_last real_resampled) ;;
  aligned_codes_compression_factor <-
    lift (floordiv output_size (Z.of_nat (length mel_codes))) ;;
  padded <- lift (pad_to_alignment pad_codes output_size 2048
                    aligned_codes_compression_factor mel_codes) ;;
  let '(padded_size, mel_codes) := padded in
  let output_shape := [1; 1; padded_size] in
  gen <- sample self output_shape
           [("tokens", inl mel_codes);
            ("conditioning_input", inr (unsqueeze audio 0));
            ("unaligned_input", inl text_codes)] ;;
  ret (gen, real_resampled, sample_rate).

(** Lines 123-149. *)
Definition perform_diffusion_tts9_mel_from_codes (self : Evaluator) (audio : Tensor)
    (codes : list Z) (text : string) : M (Tensor * Tensor * Z) :=
  let SAMPLE_RATE := 24000 in
  let mel := wav_to_mel audio in
  dvae <- local_module "dvae" ;;
  mel_codes <- lift (convert_mel_to_codes dvae mel) ;;
  let real_resampled := unsqueeze (resample audio 22050 SAMPLE_RATE) 0 in
  let univnet_mel := wav_to_univnet_mel real_resampled in
  output_size <- lift (shape_last univnet_mel) ;;
  aligned_codes_compression_factor <-
    lift (floordiv output_size (Z.of_nat (length mel_codes))) ;;
  shaped <- match alignment_size (model self) with
            | Some multiple =>
                padded <- lift (pad_to_alignment pad_codes output_size multiple
                                  aligned_codes_compression_factor mel_codes) ;;
                let '(padded_size, mel_codes) := padded in
                ret ([1; 100; padded_size], mel_codes)
            | None => ret (shape univnet_mel, mel_codes)
            end ;;
  let '(output_shape, mel_codes) := shaped in
  gen_mel <- sample self output_shape
               [("aligned_conditioning", inl mel_codes);
                ("conditioning_input", inr univnet_mel)] ;;
  let gen_mel := denormalize_tacotron_mel gen_mel in
  vocoder <- local_module "vocoder" ;;
  gen_wav <- lift (vocoder_inference vocoder gen_mel) ;;
  vocoder <- local_module "vocoder" ;;
  real_dec <- lift (vocoder_inference vocoder univnet_mel) ;;
  ret (t_float gen_wav, real_dec, SAMPLE_RATE).

(** [self.diffusion_fn(audio, codes, text)]: the bound method with its
    default sample rate, or [AttributeError] when the attribute was never
    assigned. *)
Definition call_diffusion_fn (self : Evaluator) (audio : Tensor) (codes : list Z)
    (text : string) : M (Tensor * Tensor * Z) :=
  match diffusion_fn self with
  | None => raise AttributeError
  | Some perform_diffusion_tts_fn => perform_diffusion_tts self audio codes text 5500
  | Some perform_original_diffusion_vocoder_fn =>
      perform_original_diffusion_vocoder self audio codes text 11025
  | Some perform_diffusion_vocoder_fn => perform_diffusion_vocoder self audio codes text 5500
  | Some perform_diffusion_tts9_mel_from_codes_fn =>
      perform_diffusion_tts9_mel_from_codes self audio codes text
  end.

(** ** Scoring *)

(** Lines 163-166. *)
Definition project (projector : Tensor -> Res Tensor) (sample : Tensor)
    (sample_rate : Z) : Res Tensor :=
  let sample := resample sample sample_rate 22050 in
  let mel := wav_to_mel sample in
  res_bind (projector mel) (fun p => Ok (squeeze p 0)).

(** The body of the loop of lines 177-182, for one waveform. *)
Definition asr_loss (w2v : Tensor -> list Z -> Res Tensor) (sample_rate : Z)
    (text_codes : list Z) (s : Tensor) : Res Tensor :=
  let s := resample s sample_rate 16000 in
  let norm_s := t_div (t_sub s (t_mean s)) (t_sqrt (t_add_float (t_var s) eps_1e_7)) in
  let norm_s := squeeze norm_s 1 in
  w2v norm_s text_codes.

(** [for s in l: ...; results.append(loss)]. *)
Fixpoint for_append {A B} (body : A -> Res B) (l : list A) (results : list B)
    : Res (list B) :=
  match l with
  | [] => Ok results
  | s :: rest => res_bind (body s) (fun loss => for_append body rest (results ++ [loss]))
  end.

(** Lines 171-184. *)
Definition intelligibility_loss (w2v : Tensor -> list Z -> Res Tensor)
    (sample real_sample : Tensor) (sample_rate : Z) (real_text : string) : Res Tensor :=
  let text_codes := text_to_sequence real_text in
  res_bind (for_append (asr_loss w2v sample_rate text_codes) [sample; real_sample] [])
    (fun results =>
       match results with
       | [gen_loss; real_loss] => Ok (t_sub gen_loss real_loss)
       | _ => Raise ValueError
       end).

(** Lines 187-195. *)
Definition compute_frechet_distance (proj1 proj2 : Tensor) : Res Tensor :=
  let proj1 := t_cpu proj1 in
  let proj2 := t_cpu proj2 in
  let mu1 := np_mean0 proj1 in
  let mu2 := np_mean0 proj2 in
  let sigma1 := np_cov proj1 in
  let sigma2 := np_cov proj2 in
  calculate_frechet_distance mu1 sigma1 mu2 sigma2.

(** [torch.stack(l, dim=0)], which refuses an empty list. *)
Definition torch_stack (l : list Tensor) : Res Tensor :=
  match l with
  | [] => Raise RuntimeError
  | _ => Ok (stack l)
  end.

(** ** The evaluation run *)

(** Line 198. *)
Definition save_path (self : Evaluator) : string :=
  osp_join (base_path (env self)) ["../"; "audio_eval"; str (step (env self))].

(** Lines 151-161: the CLIP model is built, with fresh weights, and the
    checkpoint is then loaded into it. *)
Definition load_projector : M (Tensor -> Res Tensor) :=
  build mel_text_clip_init clip_checkpoint.

(** Lines 168-169. *)
Definition load_w2v : M (Tensor -> list Z -> Res Tensor) :=
  build w2v_init w2v_pretrained.

(** Lines 199-207: the output directory, the projector, the ASR model, and
    the helper modules moved to the compute device. *)
Definition load_auxiliary (self : Evaluator)
    : M ((Tensor -> Res Tensor) * (Tensor -> list Z -> Res Tensor)) :=
  emit (EvMakedirs (save_path self)) ;;;
  lift (makedirs (save_path self)) ;;;
  projector <- load_projector ;;
  w2v <- load_w2v ;;
  ms <- get_local_modules ;;
  set_local_modules (module_to (device (env self)) <$> ms) ;;;
  ret (projector, w2v).

(** [torchaudio.save(os.path.join(save_path, name), sample.squeeze(0).cpu(), sample_rate)]. *)
Definition save_audio (self : Evaluator) (name : string) (sample : Tensor)
    (sample_rate : Z) : M unit :=
  let path := osp_join (save_path self) [name] in
  emit (EvSave path sample_rate) ;;;
  lift (torchaudio_save path (t_cpu (squeeze sample 0)) sample_rate).

(** Lines 219-229: one iteration of the loop, on the three lists it appends
    to.  Moving a tensor to another device ([.to(self.dev)]) does not change
    it here. *)
Definition eval_example (self : Evaluator) (projector : Tensor -> Res Tensor)
    (w2v : Tensor -> list Z -> Res Tensor) (i : Z)
    (acc : list Tensor * list Tensor * list Tensor)
    : M (list Tensor * list Tensor * list Tensor) :=
  let '(gen_projections, real_projections, intelligibility_losses) := acc in
  entry <- lift (list_getitem (data self) (i + rank (env self))) ;;
  let path := entry_path entry in
  let text := entry_text entry in
  let codes := entry_codes entry in
  emit (EvLoadAudio path) ;;;
  audio <- lift (load_audio path 22050) ;;
  out <- call_diffusion_fn self audio codes text ;;
  let '(sample, ref, sample_rate) := out in
  g <- lift (project projector sample sample_rate) ;;
  let gen_projections := gen_projections ++ [t_cpu g] in
  r <- lift (project projector ref sample_rate) ;;
  let real_projections := real_projections ++ [t_cpu r] in
  l <- lift (intelligibility_loss w2v sample ref sample_rate text) ;;
  let intelligibility_losses := intelligibility_losses ++ [l] in
  save_audio self (gen_name (rank (env self)) i) sample sample_rate ;;;
  save_audio self (real_name (rank (env self)) i) ref sample_rate ;;;
  ret (gen_projections, real_projections, intelligibility_losses).

(** Line 218: [for i in list(range(0, len(self.data), self.skip))]. *)
Fixpoint eval_loop (self : Evaluator) (projector : Tensor -> Res Tensor)
    (w2v : Tensor -> list Z -> Res Tensor) (indices : list Z)
    (acc : list Tensor * list Tensor * list Tensor)
    : M (list Tensor * list Tensor * list Tensor) :=
  match indices with
  | [] => ret acc
  | i :: rest =>
      acc <- eval_example self projector w2v i acc ;;
      eval_loop self projector w2v rest acc
  end.

Definition eval_indices (self : Evaluator) : list Z :=
  py_range 0 (Z.of_nat (length (data self))) (skip self).

(** [distributed.all_reduce(t)] followed by the division by the world size. *)
Definition reduce_mean (t : Tensor) (n : Z) : M Tensor :=
  emit EvAllReduce ;;;
  t <- lift (all_reduce t) ;;
  ret (t_div_int t n).

(** Lines 230-239: the two metrics of one worker, averaged over the workers
    of a distributed run. *)
Definition aggregate (acc : list Tensor * list Tensor * list Tensor)
    : M (Tensor * Tensor) :=
  let '(gen_projections, real_projections, intelligibility_losses) := acc in
  gen_projections <- lift (torch_stack gen_projections) ;;
  real_projections <- lift (torch_stack real_projections) ;;
  losses <- lift (torch_stack intelligibility_losses) ;;
  let intelligibility_loss := t_mean losses in
  frechet_distance <- lift (compute_frechet_distance gen_projections real_projections) ;;
  ws <- get_world_size ;;
  if is_distributed ws then
    frechet_distance <- reduce_mean frechet_distance (default 1 ws) ;;
    intelligibility_loss <- reduce_mean intelligibility_loss (default 1 ws) ;;
    ret (frechet_distance, intelligibility_loss)
  else
    ret (frechet_distance, intelligibility_loss).

(** Lines 212-239: everything between the seeding and the restoration. *)
Definition seeded_run (self : Evaluator) (projector : Tensor -> Res Tensor)
    (w2v : Tensor -> list Z -> Res Tensor) : M (Tensor * Tensor) :=
  model_eval ;;;
  acc <- eval_loop self projector w2v (eval_indices self) ([], [], []) ;;
  aggregate acc.

(** The returned dictionary. *)
Definition metrics (frechet_distance intelligibility_loss : Tensor) : gmap string Tensor :=
  <["frechet_distance" := frechet_distance]>
    (<["intelligibility_loss" := intelligibility_loss]> ∅).

(** [AudioDiffusionFid.perform_eval] (lines 197-248). *)
Definition perform_eval (self : Evaluator) : M (gmap string Tensor) :=
  aux <- load_auxiliary self ;;
  let '(projector, w2v) := aux in
  rng_state <- get_rng_state ;;
  manual_seed 5 ;;;
  result <- seeded_run self projector w2v ;;
  let '(frechet_distance, intelligibility_loss) := result in
  model_train ;;;
  set_rng_state rng_state ;;;
  ms <- get_local_modules ;;
  set_local_modules (module_cpu <$> ms) ;;;
  ret (metrics frechet_distance intelligibility_loss).

(** ** Observations on a trace *)

Definition saved_files (t : list Event) : list string :=
  omap (fun ev => match ev with EvSave p _ => Some p | _ => None end) t.

Definition loaded_files (t : list Event) : list string :=
  omap (fun ev => match ev with EvLoadAudio p => Some p | _ => None end) t.

Definition sampler_calls (t : list Event) : list (list Z) :=
  omap (fun ev => match ev with EvSample sh => Some sh | _ => None end) t.

(** The dataset positions one worker reads: [i + rank] for every [i] of
    [range(0, len, skip)]. *)
Definition accessed_indices (len skip rank : Z) : list Z :=
  map (fun i => i + rank) (py_range 0 len skip).

Definition with_rng (g : Rng) (w : World) : World :=
  {| rng := g; cuda_rng := cuda_rng w; model_training := model_training w;
     local_modules := local_modules w; world_size := world_size w;
     trace := trace w |}.

Definition with_cuda_rng (c : CudaRng) (w : World) : World :=
  {| rng := rng w; cuda_rng := c; model_training := model_training w;
     local_modules := local_modules w; world_size := world_size w;
     trace := trace w |}.

(** ** Frames

    What a computation, the generator or an event leaves unchanged; the
    properties below are stated with these. *)

(** A computation leaves an observation [f] of the world alone. *)
Definition frame_on {X A} (f : World -> X) (c : M A) : Prop :=
  forall w, f (snd (c w)) = f w.

(** Observations that do not look at the generator, resp. at anything an
    event of the given kind would change. *)
Definition ignores_rng {X} (f : World -> X) : Prop :=
  forall g c w, f (with_cuda_rng c (with_rng g w)) = f w.

Definition ignores_event {X} (f : World -> X) (ev : Event) : Prop :=
  forall w, f {| rng := rng w; cuda_rng := cuda_rng w;
                 model_training := model_training w;
                 local_modules := local_modules w; world_size := world_size w;
                 trace := trace w ++ [ev] |} = f w.

(** Observations that only an [EvSample] event can change. *)
Definition ignores_io {X} (f : World -> X) : Prop :=
  forall ev, (forall sh, ev <> EvSample sh) -> ignores_event f ev.

(** What a sampling strategy leaves alone: everything but the generator and
    the record of sampler calls. *)
Definition strategy_stable {X} (f : World -> X) : Prop :=
  ignores_rng f /\ forall sh, ignores_event f (EvSample sh).

(** The two files one iteration writes. *)
Definition example_files (self : Evaluator) (i : Z) : list string :=
  [osp_join (save_path self) [gen_name (rank (env self)) i];
   osp_join (save_path self) [real_name (rank (env self)) i]].

(** The collective reductions a trace holds. *)
Definition all_reduces (t : list Event) : nat :=
  length (omap (fun ev => match ev with EvAllReduce => Some tt | _ => None end) t).

(** The comparison rate a sampling function returns (lines 75, 99, 120, 149). *)
Definition comparison_rate (fn : Strategy) : Z :=
  match fn with
  | perform_diffusion_tts9_mel_from_codes_fn => 24000
  | _ => 5500
  end.

(** The helper modules [__init__] loads for a mode (lines 48-60). *)
Definition modules_of_mode (mode : string) : gmap string Module :=
  if bool_decide (mode = "tts") then ∅
  else if bool_decide (mode = "original_vocoder") then
    {[ "dvae" := {| kind := Dvae; on_device := "cpu" |} ]}
  else if bool_decide (mode = "vocoder") then
    {[ "dvae" := {| kind := Dvae; on_device := "cpu" |} ]}
  else if bool_decide (mode = "tts9_mel") then
    <["vocoder" := {| kind := UnivnetVocoder; on_device := "cpu" |}]>
      {[ "dvae" := {| kind := Dvae; on_device := "cpu" |} ]}
  else ∅.

(** The sampling function [__init__] binds for a mode (lines 48-60). *)
Definition strategy_of_mode (mode : string) : option Strategy :=
  if bool_decide (mode = "tts") then Some perform_diffusion_tts_fn
  else if bool_decide (mode = "original_vocoder") then
    Some perform_original_diffusion_vocoder_fn
  else if bool_decide (mode = "vocoder") then Some perform_diffusion_vocoder_fn
  else if bool_decide (mode = "tts9_mel") then
    Some perform_diffusion_tts9_mel_from_codes_fn
  else None.

(** What building the helper modules of a mode does to the default generator
    (lines 48-60): each module built draws its initial weights. *)
Definition generator_of_mode (mode : string) (g : Rng) : Rng :=
  if bool_decide (mode = "tts") then g
  else if bool_decide (mode = "original_vocoder") then dvae_init g
  else if bool_decide (mode = "vocoder") then dvae_init g
  else if bool_decide (mode = "tts9_mel") then vocoder_init (dvae_init g)
  else g.

(** The events of one iteration of the loop (lines 219-229): the audio of the
    entry is loaded, the sampler is called for [shape], and the generated and
    the reference waveform are saved at the rate of the sampling function. *)
Definition example_trace (self : Evaluator) (fn : Strategy)
    (step : Z * Entry * list Z) : list Event :=
  let '(i, entry, shape) := step in
  [EvLoadAudio (entry_path entry);
   EvSample shape;
   EvSave (osp_join (save_path self) [gen_name (rank (env self)) i]) (comparison_rate fn);
   EvSave (osp_join (save_path self) [real_name (rank (env self)) i]) (comparison_rate fn)].

(** The events of the reduction over the workers (lines 235-239). *)
Definition reduce_trace (ws : option Z) : list Event :=
  if is_distributed ws then [EvAllReduce; EvAllReduce] else [].

End Methods.

(** ** A small backend to run the evaluator on

    Tensors and generator states are integers; the sampler returns the CPU
    generator state it was called with and advances both generators by one;
    building the CLIP model, the codec or the vocoder advances the CPU
    generator by one; an audio file with an empty path cannot be loaded. *)
Module Toy.

#[export] Instance backend : Backend := {|
  Tensor := Z;
  Rng := Z;
  CudaRng := Z;
  seeded := fun seed => seed;
  cuda_seeded := fun seed => seed + 100;
  shape := fun _ => [1; 4096];
  unsqueeze := fun t _ => t;
  squeeze := fun t _ => t;
  t_mean := fun t => t;
  t_var := fun _ => 1;
  t_sqrt := Z.sqrt;
  t_sub := Z.sub;
  t_div := Z.div;
  t_add_float := fun t _ => t;
  t_div_int := Z.div;
  t_float := fun t => t;
  t_cpu := fun t => t;
  t_pad := fun t _ _ => t;
  stack := fun l => foldr Z.add 0 l;
  all_reduce := fun t => Ok t;
  resample := fun t _ _ => t;
  torchaudio_save := fun _ _ _ => Ok tt;
  makedirs := fun _ => Ok tt;
  np_mean0 := fun t => t;
  np_cov := fun t => t;
  calculate_frechet_distance := fun mu1 _ mu2 _ => Ok ((mu1 - mu2) * (mu1 - mu2));
  load_tsv_aligned_codes := fun path =>
    if bool_decide (path = "") then Raise OSError
    else Ok [ {| entry_path := "a.wav"; entry_text := "a"; entry_codes := [1; 2; 3] |};
              {| entry_path := "b.wav"; entry_text := "b"; entry_codes := [4; 5] |};
              {| entry_path := "c.wav"; entry_text := "c"; entry_codes := [6] |};
              {| entry_path := "d.wav"; entry_text := "d"; entry_codes := [7; 8; 9; 10] |} ];
  load_audio := fun path _ =>
    if bool_decide (path = "") then Raise OSError
    else Ok (Z.of_nat (String.length path));
  text_to_sequence := fun text => [Z.of_nat (String.length text)];
  wav_to_mel := fun t => t;
  wav_to_univnet_mel := fun t => t;
  denormalize_tacotron_mel := fun t => t;
  dvae_init := fun g => g + 1;
  load_speech_dvae := Ok tt;
  vocoder_init := fun g => g + 1;
  load_univnet_vocoder := Ok tt;
  load_mel_norms := Ok (1, 0);
  convert_mel_to_codes := fun _ _ => Ok [1; 2; 3; 4];
  dvae_decode := fun _ codes => Ok (Z.of_nat (length codes));
  vocoder_inference := fun _ t => Ok t;
  mel_text_clip_init := fun g => g + 1;
  clip_checkpoint := Ok (fun mel => Ok (2 * mel));
  w2v_init := fun g => g;
  w2v_pretrained := Ok (fun s labels => Ok (s + Z.of_nat (length labels)));
  p_sample_loop := fun _ _ _ _ g c => (Ok g, g + 1, c + 1);
|}.

Definition opts (mode : string) : OptEval :=
  {| eval_tsv := Some "eval.tsv"; diffusion_steps := Some 100;
     diffusion_schedule := Some "linear"; conditioning_free := Some false;
     conditioning_free_k := Some 1; diffusion_type := Some mode |}.

Definition env0 (r : Z) : Env :=
  {| device := "cuda"; rank := r; base_path := "/tmp/test_eval"; step := 558;
     schedule_name := None |}.

Definition net : Model := {| alignment_size := None |}.

Definition world0 (ws : option Z) : World :=
  {| rng := 42; cuda_rng := 7; model_training := true; local_modules := ∅;
     world_size := ws; trace := [] |}.

(** A world of a distributed run whose evaluator holds a codec on the CPU. *)
Definition world1 (ws : option Z) : World :=
  {| rng := 42; cuda_rng := 7; model_training := true;
     local_modules := {[ "dvae" := {| kind := Dvae; on_device := "cpu" |} ]};
     world_size := ws; trace := [] |}.

(** The evaluator [__init__] builds for the given mode, and the world it
    leaves. *)
Definition built (mode : string) (r : Z) (ws : option Z) : Res Evaluator * World :=
  __init__ net (opts mode) (env0 r) (world0 ws).

Definition entries (n : nat) : list Entry :=
  map (fun k : nat => {| entry_path := "clip" +:+ pretty k +:+ ".wav"; entry_text := "x";
                         entry_codes := [1; 2; 3] |})
      (seq 0 n).

(** An evaluator with [n] entries, assembled field by field. *)
Definition evaluator (n : nat) (sk r : Z) (fn : option Strategy) : Evaluator :=
  {| model := net; env := env0 r; real_path := "eval.tsv"; data := entries n;
     skip := sk;
     diffuser := {| desired_diffusion_steps := 100; schedule := "linear";
                    enable_conditioning_free_guidance := false;
                    diffuser_conditioning_free_k := 1 |};
     dev := "cuda"; mel_max := None; mel_min := None; diffusion_fn := fn |}.

(** The same backend with another codec encoder and another ASR loader. *)
Definition variant (codec : Module -> Z -> Res (list Z))
    (w2v : Res (Z -> list Z -> Res Z)) : Backend := {|
  Tensor := Z;
  Rng := Z;
  CudaRng := Z;
  seeded := @seeded backend;
  cuda_seeded := @cuda_seeded backend;
  shape := @shape backend;
  unsqueeze := @unsqueeze backend;
  squeeze := @squeeze backend;
  t_mean := @t_mean backend;
  t_var := @t_var backend;
  t_sqrt := @t_sqrt backend;
  t_sub := @t_sub backend;
  t_div := @t_div backend;
  t_add_float := @t_add_float backend;
  t_div_int := @t_div_int backend;
  t_float := @t_float backend;
  t_cpu := @t_cpu backend;
  t_pad := @t_pad backend;
  stack := @stack backend;
  all_reduce := @all_reduce backend;
  resample := @resample backend;
  torchaudio_save := @torchaudio_save backend;
  makedirs := @makedirs backend;
  np_mean0 := @np_mean0 backend;
  np_cov := @np_cov backend;
  calculate_frechet_distance := @calculate_frechet_distance backend;
  load_tsv_aligned_codes := @load_tsv_aligned_codes backend;
  load_audio := @load_audio backend;
  text_to_sequence := @text_to_sequence backend;
  wav_to_mel := @wav_to_mel backend;
  wav_to_univnet_mel := @wav_to_univnet_mel backend;
  denormalize_tacotron_mel := @denormalize_tacotron_mel backend;
  dvae_init := @dvae_init backend;
  load_speech_dvae := @load_speech_dvae backend;
  vocoder_init := @vocoder_init backend;
  load_univnet_vocoder := @load_univnet_vocoder backend;
  load_mel_norms := @load_mel_norms backend;
  convert_mel_to_codes := codec;
  dvae_decode := @dvae_decode backend;
  vocoder_inference := @vocoder_inference backend;
  mel_text_clip_init := @mel_text_clip_init backend;
  clip_checkpoint := @clip_checkpoint backend;
  w2v_init := @w2v_init backend;
  w2v_pretrained := w2v;
  p_sample_loop := @p_sample_loop backend;
|}.

(** A codec that finds no code in silence (the waveform 0). *)
Definition mute : Backend :=
  variant (fun _ mel => if mel =? 0 then Ok [] else Ok [1; 2; 3; 4])
          (@w2v_pretrained backend).

(** The ASR model cannot be fetched. *)
Definition offline : Backend :=
  variant (@convert_mel_to_codes backend) (Raise OSError).

Definition offline_evaluator (fn : option Strategy) : @Evaluator offline :=
  {| model := net; env := env0 0; real_path := "eval.tsv"; data := entries 4;
     skip := 1;
     diffuser := {| desired_diffusion_steps := 100; schedule := "linear";
                    enable_conditioning_free_guidance := false;
                    diffuser_conditioning_free_k := 1 |};
     dev := "cuda"; mel_max := None; mel_min := None; diffusion_fn := fn |}.

Definition offline_world : @World offline :=
  {| rng := 42 : @Rng offline; cuda_rng := 7 : @CudaRng offline; model_training := true;
     local_modules := {[ "dvae" := {| kind := Dvae; on_device := "cpu" |} ]};
     world_size := None; trace := [] |}.

Definition mute_evaluator (fn : option Strategy) : @Evaluator mute :=
  {| model := net; env := env0 0; real_path := "eval.tsv"; data := entries 4;
     skip := 1;
     diffuser := {| desired_diffusion_steps := 100; schedule := "linear";
                    enable_conditioning_free_guidance := false;
                    diffuser_conditioning_free_k := 1 |};
     dev := "cuda"; mel_max := None; mel_min := None; diffusion_fn := fn |}.

Definition mute_world : @World mute :=
  {| rng := 42 : @Rng mute; cuda_rng := 7 : @CudaRng mute; model_training := true;
     local_modules := {[ "dvae" := {| kind := Dvae; on_device := "cpu" |} ]};
     world_size := None; trace := [] |}.

End Toy.

(** * Properties *)

(** ** The padding arithmetic *)

Section Padding.

Lemma first_multiple_spec fuel : forall k base m,
  0 < m -> 0 <= k -> base <= (k + Z.of_nat fuel) * m ->
  (forall j, 0 <= j < k -> j * m < base) ->
  exists q, first_multiple fuel k base m = q * m /\ 0 <= q /\
            base <= q * m /\ (forall j, 0 <= j < q -> j * m < base).
Proof.
  induction fuel as [|fuel IH]; intros k base m Hm Hk Hreach Hbelow; simpl.
  - exists k. replace (k + Z.of_nat 0) with k in Hreach by lia. auto.
  - destruct (Z.leb_spec base (k * m)) as [Hle|Hgt].
    + exists k; auto.
    + apply IH; [lia | lia | | ].
      * replace (k + 1 + Z.of_nat fuel) with (k + Z.of_nat (S fuel)) by lia.
        exact Hreach.
      * intros j Hj. destruct (Z.eq_dec j k) as [->|Hne]; [exact Hgt|].
        apply Hbelow; lia.
Qed.

Lemma ceil_multiple_spec base m :
  0 < m ->
  exists q, ceil_multiple base m = q * m /\ 0 <= q /\
            base <= q * m /\ (forall j, 0 <= j < q -> j * m < base).
Proof.
  intros Hm. unfold ceil_multiple.
  apply first_multiple_spec; try lia.
  destruct (Z.le_gt_cases 0 base) as [Hb|Hb].
  - rewrite Z2Nat.id by exact Hb. nia.
  - replace (Z.to_nat base) with O by lia. simpl. lia.
Qed.

Lemma ceil_multiple_ge base m : 0 < m -> base <= ceil_multiple base m.
Proof.
  intros Hm. destruct (ceil_multiple_spec base m Hm) as (q & -> & _ & Hge & _).
  exact Hge.
Qed.

(** The closed form the search computes on non-negative sizes. *)
Lemma ceil_multiple_closed base m :
  0 <= base -> 0 < m -> ceil_multiple base m = base + (- base) mod m.
Proof.
  intros Hb Hm. destruct (ceil_multiple_spec base m Hm) as (q & -> & Hq & Hge & Hmin).
  assert (Hlt : q * m - m < base).
  { destruct (Z.eq_dec q 0) as [->|Hne]; [lia|].
    specialize (Hmin (q - 1)). lia. }
  assert (Hmod : (- base) mod m = q * m - base).
  { symmetry. apply (Z.mod_unique_pos _ _ (- q)); lia. }
  lia.
Qed.

Lemma padding_needed_ok output_size m cf :
  0 < m -> 0 < cf ->
  padding_needed_for_codes output_size m cf
    = Ok ((ceil_multiple output_size m - output_size) / cf)
  /\ 0 <= (ceil_multiple output_size m - output_size) / cf.
Proof.
  intros Hm Hcf. unfold padding_needed_for_codes, floordiv.
  destruct (Z.eqb_spec cf 0) as [->|_]; [lia|]. split; [reflexivity|].
  apply Z.div_pos; [|exact Hcf].
  pose proof (ceil_multiple_ge output_size m Hm). lia.
Qed.

Lemma pad_to_alignment_codes output_size m cf codes :
  0 < m -> 0 < cf ->
  pad_to_alignment pad_codes output_size m cf codes
    = Ok (ceil_multiple output_size m,
          codes ++ replicate (Z.to_nat ((ceil_multiple output_size m - output_size) / cf)) 0).
Proof.
  intros Hm Hcf. unfold pad_to_alignment.
  destruct (padding_needed_ok output_size m cf Hm Hcf) as [-> Hnn]. simpl.
  destruct (Z.ltb_spec 0 ((ceil_multiple output_size m - output_size) / cf)) as [Hpos|Hz].
  - reflexivity.
  - replace ((ceil_multiple output_size m - output_size) / cf) with 0 by lia.
    simpl. by rewrite app_nil_r.
Qed.

End Padding.

(** C2.  For a non-negative output size and a positive alignment multiple the
    padded size is a multiple of the alignment, it is at least the output size
    and less than one alignment step above it, and no smaller multiple of the
    alignment reaches the output size. *)
Theorem ceil_multiple_smallest (output_size m : Z) :
  0 <= output_size -> 0 < m ->
  (m | ceil_multiple output_size m)
  /\ ceil_multiple output_size m - m < output_size <= ceil_multiple output_size m
  /\ (forall x, (m | x) -> output_size <= x -> ceil_multiple output_size m <= x).
Proof.
  intros Hb Hm.
  destruct (ceil_multiple_spec output_size m Hm) as (q & -> & Hq & Hge & Hmin).
  assert (Hlt : q * m - m < output_size).
  { destruct (Z.eq_dec q 0) as [->|Hne]; [lia|]. specialize (Hmin (q - 1)). lia. }
  repeat split; try lia.
  - exists q. reflexivity.
  - intros x [j ->] Hx.
    destruct (Z.lt_ge_cases j q) as [Hjq|Hjq]; [|nia].
    destruct (Z.lt_ge_cases j 0) as [Hneg|Hnn]; [nia|].
    specialize (Hmin j). lia.
Qed.

Lemma ceil_multiple_smallest_witness :
  (2048 | ceil_multiple 330 2048)
  /\ ceil_multiple 330 2048 - 2048 < 330 <= ceil_multiple 330 2048
  /\ (forall x, (2048 | x) -> 330 <= x -> ceil_multiple 330 2048 <= x).
Proof. apply (ceil_multiple_smallest 330 2048); lia. Defined.

(** C3.  With a positive alignment multiple and a positive compression factor
    the padding of the codes is the floor quotient of the padding added to the
    output by the compression factor and is never negative; a positive padding
    appends exactly that many zeros to the code sequence and a zero padding
    leaves it as it was.  [perform_diffusion_tts] hands the sequence padded
    this way to the sampler as [tokens]. *)
Theorem codes_padding_floor `{Backend} (output_size m cf : Z) (codes : list Z) :
  0 < m -> 0 < cf ->
  let padded_size := ceil_multiple output_size m in
  let padding := (padded_size - output_size) / cf in
  padding_needed_for_codes output_size m cf = Ok padding
  /\ 0 <= padding
  /\ (exists codes', pad_to_alignment pad_codes output_size m cf codes = Ok (padded_size, codes')
        /\ (0 < padding -> codes' = codes ++ replicate (Z.to_nat padding) 0
                           /\ Z.of_nat (length codes') = Z.of_nat (length codes) + padding)
        /\ (padding = 0 -> codes' = codes))
  /\ (forall self audio text sample_rate,
        m = 2048 -> cf = sample_rate * 221 / 11025 ->
        output_size = Z.of_nat (length codes) * cf ->
        perform_diffusion_tts self audio codes text sample_rate
        = bind (sample self [1; 1; padded_size]
                  [("tokens", inl (codes ++ replicate (Z.to_nat padding) 0));
                   ("conditioning_input",
                    inr (unsqueeze (resample audio 22050 sample_rate) 0))])
               (fun gen => ret (gen, unsqueeze (resample audio 22050 sample_rate) 0, sample_rate))).
Proof.
  intros Hm Hcf padded_size padding.
  destruct (padding_needed_ok output_size m cf Hm Hcf) as [Hp Hnn].
  pose proof (pad_to_alignment_codes output_size m cf codes Hm Hcf) as Hpad.
  split; [exact Hp|]. split; [exact Hnn|]. split.
  - eexists. split; [exact Hpad|]. split.
    + intros Hpos. split; [reflexivity|].
      rewrite length_app, length_replicate. fold padded_size padding. lia.
    + intros Hz. fold padded_size padding. rewrite Hz. simpl. by rewrite app_nil_r.
  - intros self audio text sample_rate -> Hcf' Hsize.
    unfold perform_diffusion_tts. rewrite <- Hcf', <- Hsize, Hpad.
    reflexivity.
Qed.

(** ** Reasoning about runs *)

Section Runs.

Context `{Backend}.

Lemma bind_inv {A B} (c : M A) (k : A -> M B) w r w' :
  bind c k w = (r, w') ->
  (exists a w1, c w = (Ok a, w1) /\ k a w1 = (r, w'))
  \/ (exists e, c w = (Raise e, w') /\ r = Raise e).
Proof.
  unfold bind. destruct (c w) as [[a|e] w1]; intros Hk.
  - left. eauto.
  - right. exists e. by inversion Hk.
Qed.

Lemma bind_ok_inv {A B} (c : M A) (k : A -> M B) w b w' :
  bind c k w = (Ok b, w') ->
  exists a w1, c w = (Ok a, w1) /\ k a w1 = (Ok b, w').
Proof.
  intros Hk. destruct (bind_inv _ _ _ _ _ Hk) as [?|(e & _ & ?)]; [done|discriminate].
Qed.

Lemma bind_ok {A B} (c : M A) (k : A -> M B) w a w1 :
  c w = (Ok a, w1) -> bind c k w = k a w1.
Proof. unfold bind. by intros ->. Qed.

Lemma bind_raise {A B} (c : M A) (k : A -> M B) w e w1 :
  c w = (Raise e, w1) -> bind c k w = (Raise e, w1).
Proof. unfold bind. by intros ->. Qed.

Lemma list_getitem_ok {A} (l : list A) i a :
  list_getitem l i = Ok a -> i < Z.of_nat (length l) /\ (0 < length l)%nat.
Proof.
  unfold list_getitem.
  destruct (Z.ltb_spec i 0) as [Hneg|Hnn].
  - destruct (_ <? 0); [done|].
    destruct (l !! _) eqn:Hl; [|done]. apply lookup_lt_Some in Hl. lia.
  - destruct (Z.ltb_spec i 0) as [|_]; [lia|].
    destruct (l !! _) eqn:Hl; [|done]. apply lookup_lt_Some in Hl. lia.
Qed.

Lemma list_getitem_nonneg {A} (l : list A) i :
  0 <= i -> list_getitem l i = match l !! Z.to_nat i with
                               | Some a => Ok a
                               | None => Raise IndexError
                               end.
Proof.
  intros Hi. unfold list_getitem.
  destruct (Z.ltb_spec i 0) as [|_]; [lia|].
  by destruct (Z.ltb_spec i 0) as [|_]; [lia|].
Qed.

Lemma lift_inv {A} (r : Res A) w r' w' :
  lift r w = (r', w') -> r' = r /\ w' = w.
Proof. unfold lift. by inversion 1. Qed.

Lemma frame_ret {X A} (f : World -> X) (a : A) : frame_on f (ret a).
Proof. by intros w. Qed.

Lemma frame_lift {X A} (f : World -> X) (r : Res A) : frame_on f (lift r).
Proof. by intros w. Qed.

Lemma frame_raise {X A} (f : World -> X) e : frame_on f (raise (A := A) e).
Proof. by intros w. Qed.

Lemma frame_bind {X A B} (f : World -> X) (c : M A) (k : A -> M B) :
  frame_on f c -> (forall a, frame_on f (k a)) -> frame_on f (bind c k).
Proof.
  intros Hc Hk w. unfold bind. specialize (Hc w).
  destruct (c w) as [[a|e] w1]; simpl in *; [|done].
  by rewrite Hk.
Qed.

Lemma frame_run {X A} (f : World -> X) (c : M A) w r w' :
  frame_on f c -> c w = (r, w') -> f w' = f w.
Proof. intros Hc Hr. specialize (Hc w). by rewrite Hr in Hc. Qed.

Lemma frame_emit {X} (f : World -> X) ev : ignores_event f ev -> frame_on f (emit ev).
Proof. intros Hf w. apply Hf. Qed.

Lemma frame_sample {X} (f : World -> X) self output_shape kwargs :
  ignores_rng f -> ignores_event f (EvSample output_shape) ->
  frame_on f (sample self output_shape kwargs).
Proof.
  intros Hrng Hev. unfold sample. apply frame_bind; [by apply frame_emit|].
  intros _ w. destruct (p_sample_loop _ _ _ _ _ _) as [[r g] c]. simpl.
  apply (Hrng g c w).
Qed.

End Runs.

Ltac frame_step :=
  lazymatch goal with
  | |- frame_on _ (bind _ _) => apply frame_bind; [|intros ?]
  | |- frame_on _ (ret _) => apply frame_ret
  | |- frame_on _ (lift _) => apply frame_lift
  | |- frame_on _ (raise _) => apply frame_raise
  | |- frame_on _ (emit _) => apply frame_emit; try done
  | |- frame_on _ (sample _ _ _) => apply frame_sample; try done
  | |- frame_on _ (match ?x with _ => _ end) => destruct x
  | |- frame_on _ _ => by intros ?
  end.

Ltac frame := repeat frame_step.

Section Frames.

Context `{Backend}.

Lemma frame_local_module {X} (f : World -> X) key : frame_on f (local_module key).
Proof. unfold local_module. frame. Qed.

Lemma frame_call_diffusion_fn {X} (f : World -> X) self audio codes text :
  strategy_stable f -> frame_on f (call_diffusion_fn self audio codes text).
Proof.
  intros [Hrng Hev]. pose proof (frame_local_module f) as Hlm.
  unfold call_diffusion_fn.
  destruct (diffusion_fn self) as [[]|].
  - unfold perform_diffusion_tts. frame.
  - unfold perform_original_diffusion_vocoder. frame; apply Hlm.
  - unfold perform_diffusion_vocoder. frame; apply Hlm.
  - unfold perform_diffusion_tts9_mel_from_codes. frame; apply Hlm.
  - frame.
Qed.

End Frames.

Section Traces.

Context `{Backend}.

Lemma omap_ignores {Y} (g : Event -> option Y) ev :
  g ev = None -> ignores_event (fun w => omap g (trace w)) ev.
Proof. intros Hg w. simpl. rewrite omap_app. simpl. rewrite Hg. apply app_nil_r. Qed.

Lemma omap_emit {Y} (g : Event -> option Y) ev y w :
  g ev = Some y ->
  omap g (trace (snd (emit ev w))) = omap g (trace w) ++ [y].
Proof. intros Hg. simpl. rewrite omap_app. simpl. by rewrite Hg. Qed.

Lemma saved_stable : strategy_stable (fun w => saved_files (trace w)).
Proof. split; [done|]. intros sh. by apply omap_ignores. Qed.

Lemma loaded_stable : strategy_stable (fun w => loaded_files (trace w)).
Proof. split; [done|]. intros sh. by apply omap_ignores. Qed.

Lemma training_stable : strategy_stable model_training.
Proof. by split. Qed.

Lemma modules_stable : strategy_stable local_modules.
Proof. by split. Qed.

Lemma emit_inv ev w r w' :
  emit ev w = (r, w') ->
  r = Ok tt /\ rng w' = rng w /\ model_training w' = model_training w
  /\ local_modules w' = local_modules w /\ world_size w' = world_size w
  /\ trace w' = trace w ++ [ev].
Proof. unfold emit. inversion 1. by simpl. Qed.

Lemma save_audio_ok self name sample sample_rate w u w' :
  save_audio self name sample sample_rate w = (Ok u, w') ->
  saved_files (trace w') = saved_files (trace w) ++ [osp_join (save_path self) [name]]
  /\ loaded_files (trace w') = loaded_files (trace w)
  /\ sampler_calls (trace w') = sampler_calls (trace w)
  /\ rng w' = rng w /\ model_training w' = model_training w
  /\ local_modules w' = local_modules w.
Proof.
  unfold save_audio. intros Hrun.
  apply bind_ok_inv in Hrun as (? & w1 & Hemit & Hsave).
  apply emit_inv in Hemit as (_ & ? & ? & ? & ? & Htr).
  apply lift_inv in Hsave as [_ ->].
  unfold saved_files, loaded_files, sampler_calls. rewrite Htr, !omap_app. simpl.
  by rewrite !app_nil_r.
Qed.

Lemma eval_example_ok self projector w2v i gens reals losses w acc' w' :
  eval_example self projector w2v i (gens, reals, losses) w = (Ok acc', w') ->
  exists entry g r l,
    list_getitem (data self) (i + rank (env self)) = Ok entry
    /\ acc' = (gens ++ [g], reals ++ [r], losses ++ [l])
    /\ saved_files (trace w')
       = saved_files (trace w)
         ++ [osp_join (save_path self) [gen_name (rank (env self)) i];
             osp_join (save_path self) [real_name (rank (env self)) i]]
    /\ loaded_files (trace w') = loaded_files (trace w) ++ [entry_path entry].
Proof.
  unfold eval_example. intros Hrun.
  apply bind_ok_inv in Hrun as (entry & w1 & Hentry & Hrun).
  apply lift_inv in Hentry as [Hentry ->].
  apply bind_ok_inv in Hrun as (? & w2 & Hemit & Hrun).
  apply emit_inv in Hemit as (_ & _ & _ & _ & _ & Htr2).
  apply bind_ok_inv in Hrun as (audio & w3 & Haudio & Hrun).
  apply lift_inv in Haudio as [_ ->].
  apply bind_ok_inv in Hrun as ([[sample ref] sample_rate] & w4 & Hfn & Hrun).
  pose proof (frame_run _ _ _ _ _ (frame_call_diffusion_fn _ _ _ _ _ saved_stable) Hfn) as Hs4.
  pose proof (frame_run _ _ _ _ _ (frame_call_diffusion_fn _ _ _ _ _ loaded_stable) Hfn) as Hl4.
  simpl in Hs4, Hl4.
  apply bind_ok_inv in Hrun as (g & w5 & Hg & Hrun). apply lift_inv in Hg as [_ ->].
  apply bind_ok_inv in Hrun as (r & w6 & Hr & Hrun). apply lift_inv in Hr as [_ ->].
  apply bind_ok_inv in Hrun as (l & w7 & Hl & Hrun). apply lift_inv in Hl as [_ ->].
  apply bind_ok_inv in Hrun as (? & w8 & Hsave1 & Hrun).
  apply save_audio_ok in Hsave1 as (Hs8 & Hl8 & _).
  apply bind_ok_inv in Hrun as (? & w9 & Hsave2 & Hrun).
  apply save_audio_ok in Hsave2 as (Hs9 & Hl9 & _).
  inversion Hrun; subst acc' w9.
  exists entry, (t_cpu g), (t_cpu r), l.
  split; [by symmetry|]. split; [done|].
  rewrite Hs9, Hs8, Hs4, Hl9, Hl8, Hl4.
  unfold saved_files, loaded_files. rewrite Htr2, !omap_app. simpl.
  rewrite !app_nil_r, <- !app_assoc. done.
Qed.

End Traces.

Section WholeRun.

Context `{Backend}.

Lemma eval_loop_ok self projector w2v indices :
  forall gens reals losses w acc' w',
  eval_loop self projector w2v indices (gens, reals, losses) w = (Ok acc', w') ->
  exists gs rs ls entries,
    acc' = (gens ++ gs, reals ++ rs, losses ++ ls)
    /\ length gs = length indices /\ length rs = length indices
    /\ length ls = length indices
    /\ Forall2 (fun i e => list_getitem (data self) (i + rank (env self)) = Ok e)
               indices entries
    /\ saved_files (trace w')
       = saved_files (trace w) ++ concat (map (example_files self) indices)
    /\ loaded_files (trace w') = loaded_files (trace w) ++ map entry_path entries.
Proof.
  induction indices as [|i rest IH]; intros gens reals losses w acc' w' Hrun; simpl in Hrun.
  - inversion Hrun; subst. exists [], [], [], []. simpl. rewrite !app_nil_r.
    repeat split; done.
  - apply bind_ok_inv in Hrun as (acc1 & w1 & Hstep & Hrest).
    apply eval_example_ok in Hstep as (entry & g & r & l & Hentry & -> & Hs1 & Hl1).
    apply IH in Hrest as (gs & rs & ls & entries & -> & Hgs & Hrs & Hls & Hall & Hs & Hl).
    exists (g :: gs), (r :: rs), (l :: ls), (entry :: entries).
    rewrite <- !app_assoc. simpl. rewrite Hgs, Hrs, Hls.
    repeat split; try done.
    + by constructor.
    + rewrite Hs, Hs1, <- !app_assoc. done.
    + rewrite Hl, Hl1, <- !app_assoc. done.
Qed.

Lemma frame_reduce_mean {X} (f : World -> X) t n :
  ignores_event f EvAllReduce -> frame_on f (reduce_mean t n).
Proof. intros Hev. unfold reduce_mean. frame. Qed.

Lemma frame_aggregate {X} (f : World -> X) acc :
  ignores_event f EvAllReduce -> frame_on f (aggregate acc).
Proof.
  intros Hev. pose proof (frame_reduce_mean f) as Hred.
  unfold aggregate. destruct acc as [[gens reals] losses].
  frame; by apply Hred.
Qed.

Lemma load_auxiliary_inv self w r w' :
  load_auxiliary self w = (r, w') ->
  cuda_rng w' = cuda_rng w /\ model_training w' = model_training w
  /\ world_size w' = world_size w
  /\ trace w' = trace w ++ [EvMakedirs (save_path self)]
  /\ (is_ok r = true ->
      local_modules w' = module_to (device (env self)) <$> local_modules w)
  /\ forall g, exists g', load_auxiliary self (with_rng g w) = (r, with_rng g' w').
Proof.
  unfold load_auxiliary, load_projector, load_w2v, build, bind, lift, emit,
    get_local_modules, set_local_modules, ret.
  simpl. destruct (makedirs _).
  - destruct clip_checkpoint.
    + destruct w2v_pretrained; inversion 1; subst; simpl;
        (repeat split; try done); intros g; eexists; reflexivity.
    + inversion 1; subst; simpl; (repeat split; try done); intros g; eexists; reflexivity.
  - inversion 1; subst; simpl; (repeat split; try done); intros g; eexists; reflexivity.
Qed.

(** The generator state that line 210 saves: the state of the caller after
    the CLIP model and the ASR model were built. *)
Lemma load_auxiliary_rng self w aux w' :
  load_auxiliary self w = (Ok aux, w') ->
  rng w' = w2v_init (mel_text_clip_init (rng w)).
Proof.
  unfold load_auxiliary, load_projector, load_w2v, build, bind, lift, emit,
    get_local_modules, set_local_modules, ret.
  simpl. destruct (makedirs _); [|by inversion 1].
  destruct clip_checkpoint; [|by inversion 1].
  destruct w2v_pretrained; by inversion 1.
Qed.

Lemma load_auxiliary_cuda self w r w' c :
  load_auxiliary self w = (r, w') ->
  load_auxiliary self (with_cuda_rng c w) = (r, with_cuda_rng c w').
Proof.
  unfold load_auxiliary, load_projector, load_w2v, build, bind, lift, emit,
    get_local_modules, set_local_modules, ret.
  simpl. destruct (makedirs _); [|by inversion 1].
  destruct clip_checkpoint; [|by inversion 1].
  destruct w2v_pretrained; by inversion 1.
Qed.

Lemma perform_eval_unfold self w projector w2v w1 :
  load_auxiliary self w = (Ok (projector, w2v), w1) ->
  perform_eval self w
  = match seeded_run self projector w2v (reseed 5 w1) with
    | (Ok (fd, il), w2) =>
        (Ok (metrics fd il),
         {| rng := rng w1; cuda_rng := cuda_rng w2; model_training := true;
            local_modules := module_cpu <$> local_modules w2;
            world_size := world_size w2; trace := trace w2 |})
    | (Raise e, w2) => (Raise e, w2)
    end.
Proof.
  intros Haux. unfold perform_eval.
  rewrite (bind_ok _ _ _ _ _ Haux).
  unfold bind at 1. simpl. unfold bind at 1. simpl. unfold bind at 1.
  destruct (seeded_run _ _ _ _) as [[[fd il]|e] w2]; reflexivity.
Qed.

Lemma perform_eval_aux_raise self w e w1 :
  load_auxiliary self w = (Raise e, w1) -> perform_eval self w = (Raise e, w1).
Proof. intros Haux. unfold perform_eval. by rewrite (bind_raise _ _ _ _ _ Haux). Qed.

Lemma perform_eval_ok self w d w' :
  perform_eval self w = (Ok d, w') ->
  exists projector w2v w1 fd il w2,
    load_auxiliary self w = (Ok (projector, w2v), w1)
    /\ seeded_run self projector w2v (reseed 5 w1) = (Ok (fd, il), w2)
    /\ d = metrics fd il
    /\ w' = {| rng := rng w1; cuda_rng := cuda_rng w2; model_training := true;
               local_modules := module_cpu <$> local_modules w2;
               world_size := world_size w2; trace := trace w2 |}.
Proof.
  intros Hrun. destruct (load_auxiliary self w) as [[[projector w2v]|e] w1] eqn:Haux.
  - rewrite (perform_eval_unfold _ _ _ _ _ Haux) in Hrun.
    destruct (seeded_run _ _ _ _) as [[[fd il]|e] w2] eqn:Hseeded; [|discriminate].
    inversion Hrun; subst. by exists projector, w2v, w1, fd, il, w2.
  - by rewrite (perform_eval_aux_raise _ _ _ _ Haux) in Hrun.
Qed.

Lemma seeded_run_ok self projector w2v w res w' :
  seeded_run self projector w2v w = (Ok res, w') ->
  exists acc w1,
    eval_loop self projector w2v (eval_indices self) ([], [], [])
              (snd (model_eval w)) = (Ok acc, w1)
    /\ aggregate acc w1 = (Ok res, w').
Proof.
  unfold seeded_run. intros Hrun.
  apply bind_ok_inv in Hrun as (? & w0 & Heval & Hrun).
  inversion Heval; subst w0.
  apply bind_ok_inv in Hrun as (acc & w1 & Hloop & Hagg).
  by exists acc, w1.
Qed.

End WholeRun.

Section RunFrames.

Context `{Backend}.

Lemma frame_save_audio {X} (f : World -> X) self name sample sample_rate :
  ignores_io f -> frame_on f (save_audio self name sample sample_rate).
Proof. intros Hio. unfold save_audio. frame. by apply Hio. Qed.

Lemma frame_eval_example {X} (f : World -> X) self projector w2v i acc :
  ignores_io f ->
  (forall audio codes text, frame_on f (call_diffusion_fn self audio codes text)) ->
  frame_on f (eval_example self projector w2v i acc).
Proof.
  intros Hio Hfn. pose proof (frame_save_audio f self) as Hsave.
  unfold eval_example. destruct acc as [[gens reals] losses].
  frame; try (by apply Hio); try (by apply Hsave). apply Hfn.
Qed.

Lemma frame_eval_loop {X} (f : World -> X) self projector w2v indices :
  ignores_io f ->
  (forall audio codes text, frame_on f (call_diffusion_fn self audio codes text)) ->
  forall acc, frame_on f (eval_loop self projector w2v indices acc).
Proof.
  intros Hio Hfn. induction indices as [|i rest IH]; intros acc; simpl.
  - apply frame_ret.
  - apply frame_bind; [by apply frame_eval_example|]. intros acc'. apply IH.
Qed.

(** Lines 213-239, the seeded run after [self.model.eval()]. *)
Lemma seeded_run_inv self projector w2v w r w' :
  seeded_run self projector w2v w = (r, w') ->
  exists racc w1,
    eval_loop self projector w2v (eval_indices self) ([], [], [])
              (snd (model_eval w)) = (racc, w1)
    /\ match racc with
       | Ok acc => aggregate acc w1 = (r, w')
       | Raise e => r = Raise e /\ w' = w1
       end.
Proof.
  unfold seeded_run. intros Hrun.
  apply bind_inv in Hrun as [(? & w0 & Heval & Hrun)|(e & Heval & _)]; [|discriminate].
  inversion Heval; subst w0.
  apply bind_inv in Hrun as [(acc & w1 & Hloop & Hagg)|(e & Hloop & ->)].
  - exists (Ok acc), w1. by split.
  - exists (Raise e), w'. by split.
Qed.

Lemma frame_seeded_rest {X} (f : World -> X) self projector w2v w r w' :
  ignores_io f ->
  (forall audio codes text, frame_on f (call_diffusion_fn self audio codes text)) ->
  seeded_run self projector w2v w = (r, w') ->
  f w' = f (snd (model_eval w)).
Proof.
  intros Hio Hfn Hrun.
  apply seeded_run_inv in Hrun as (racc & w1 & Hloop & Hrest).
  pose proof (frame_run _ _ _ _ _ (frame_eval_loop f self projector w2v _ Hio Hfn _) Hloop) as H1.
  destruct racc as [acc|e].
  - assert (Hagg : frame_on f (aggregate acc)) by (apply frame_aggregate; by apply Hio).
    by rewrite (frame_run _ _ _ _ _ Hagg Hrest).
  - by destruct Hrest as [_ ->].
Qed.

Lemma training_ignores_io : ignores_io model_training.
Proof. by intros ev _ w. Qed.

Lemma modules_ignores_io : ignores_io local_modules.
Proof. by intros ev _ w. Qed.

End RunFrames.

(** C4.  What a run of [perform_eval] that returns does to the state the
    caller sees.  The model under test is left in training mode, after a loop
    that ran, start to end, in eval mode from the generators seeded with 5.
    The CPU generator is put back to the state saved on line 210, which is
    the state of the caller advanced by the building of the CLIP model and of
    the ASR model on lines 201 and 204: the caller gets its own state back
    only where building them draws nothing.  The accelerator generators are
    reseeded on line 211 and never put back: the world the run leaves is the
    same whatever their state was before. *)
Theorem perform_eval_restores_saved_state `{Backend} (self : Evaluator) (w w' : World)
    (d : gmap string Tensor) :
  perform_eval self w = (Ok d, w') ->
  rng w' = w2v_init (mel_text_clip_init (rng w))
  /\ (forall c, perform_eval self (with_cuda_rng c w) = (Ok d, w'))
  /\ model_training w' = true
  /\ exists projector w2v w1 acc w2,
       eval_loop self projector w2v (eval_indices self) ([], [], []) w1 = (Ok acc, w2)
       /\ rng w1 = seeded 5 /\ cuda_rng w1 = cuda_seeded 5
       /\ model_training w1 = false /\ model_training w2 = false.
Proof.
  intros Hrun.
  apply perform_eval_ok in Hrun as (projector & w2v & w1 & fd & il & w2 & Haux & Hseeded & -> & ->).
  split; [exact (load_auxiliary_rng _ _ _ _ Haux)|]. split.
  { intros c. rewrite (perform_eval_unfold _ _ _ _ _ (load_auxiliary_cuda _ _ _ _ c Haux)).
    change (reseed 5 (with_cuda_rng c w1)) with (reseed 5 w1). by rewrite Hseeded. }
  split; [reflexivity|].
  apply seeded_run_ok in Hseeded as (acc & w3 & Hloop & _).
  exists projector, w2v, (snd (model_eval (reseed 5 w1))), acc, w3.
  split; [exact Hloop|]. split; [reflexivity|]. split; [reflexivity|]. split; [reflexivity|].
  assert (Hframe : frame_on model_training
                     (eval_loop self projector w2v (eval_indices self) ([], [], []))).
  { apply frame_eval_loop; [apply training_ignores_io|].
    intros. apply frame_call_diffusion_fn, training_stable. }
  by rewrite (frame_run _ _ _ _ _ Hframe Hloop).
Qed.

(** C10.  When the helper models were loaded and [perform_eval] then raises,
    the model under test is still in eval mode and every helper module is
    still on the compute device; the world the exception leaves, generator
    included, is the same whatever generator state the caller had, so a
    caller whose generator state was anything else does not get it back. *)
Theorem failure_skips_restoration `{Backend} (self : Evaluator) (w w1 w' : World)
    (projector : Tensor -> Res Tensor) (w2v : Tensor -> list Z -> Res Tensor) (e : exn) :
  load_auxiliary self w = (Ok (projector, w2v), w1) ->
  perform_eval self w = (Raise e, w') ->
  model_training w' = false
  /\ local_modules w' = module_to (device (env self)) <$> local_modules w
  /\ (forall k m, local_modules w' !! k = Some m -> on_device m = device (env self))
  /\ (forall g, perform_eval self (with_rng g w) = (Raise e, w'))
  /\ (forall g, g <> rng w' -> rng (snd (perform_eval self (with_rng g w))) <> g).
Proof.
  intros Haux Hrun.
  pose proof (load_auxiliary_inv _ _ _ _ Haux) as (_ & _ & _ & _ & Hmods & Hany).
  specialize (Hmods eq_refl).
  rewrite (perform_eval_unfold _ _ _ _ _ Haux) in Hrun.
  destruct (seeded_run self projector w2v (reseed 5 w1))
    as [[[fd il]|e'] w2] eqn:Hseeded; [discriminate|].
  inversion Hrun; subst e' w2.
  assert (Hindep : forall g, perform_eval self (with_rng g w) = (Raise e, w')).
  { intros g. destruct (Hany g) as [g' Hg].
    rewrite (perform_eval_unfold _ _ _ _ _ Hg).
    change (reseed 5 (with_rng g' w1)) with (reseed 5 w1).
    by rewrite Hseeded. }
  assert (Hfn : forall X (f : World -> X), strategy_stable f ->
                forall audio codes text, frame_on f (call_diffusion_fn self audio codes text)).
  { intros. by apply frame_call_diffusion_fn. }
  pose proof (frame_seeded_rest model_training _ _ _ _ _ _ training_ignores_io
                (Hfn _ _ training_stable) Hseeded) as Htrain.
  pose proof (frame_seeded_rest local_modules _ _ _ _ _ _ modules_ignores_io
                (Hfn _ _ modules_stable) Hseeded) as Hlm.
  simpl in Htrain, Hlm.
  split; [exact Htrain|]. split; [by rewrite Hlm|]. split.
  - intros k m. rewrite Hlm, Hmods, lookup_fmap.
    destruct (local_modules w !! k); simpl; [|done]. by intros [= <-].
  - split; [exact Hindep|]. intros g Hg. by rewrite Hindep.
Qed.

Lemma perform_eval_restores_saved_state_witness :
  exists d w',
    perform_eval (Toy.evaluator 4 1 0 (Some perform_diffusion_tts_fn)) (Toy.world0 None)
      = (Ok d, w')
    /\ rng (Toy.world0 None) = 42 /\ rng w' = 43
    /\ cuda_rng (Toy.world0 None) = 7 /\ cuda_rng w' = 109
    /\ (forall c, perform_eval (Toy.evaluator 4 1 0 (Some perform_diffusion_tts_fn))
                               (with_cuda_rng c (Toy.world0 None)) = (Ok d, w'))
    /\ model_training w' = true.
Proof.
  assert (Hrun : exists d w',
             perform_eval (Toy.evaluator 4 1 0 (Some perform_diffusion_tts_fn))
                          (Toy.world0 None) = (Ok d, w')
             /\ cuda_rng w' = 109).
  { vm_compute. do 2 eexists. split; reflexivity. }
  destruct Hrun as (d & w' & Hrun & Hcuda). exists d, w'. split; [exact Hrun|].
  destruct (perform_eval_restores_saved_state _ _ _ _ Hrun) as (Hrng & Hany & Htrain & _).
  split; [reflexivity|]. split; [exact Hrng|]. split; [reflexivity|].
  split; [exact Hcuda|]. split; [exact Hany|exact Htrain].
Defined.

Lemma failure_skips_restoration_witness :
  exists projector w2v w1 e w',
    load_auxiliary (Toy.evaluator 5 2 1 (Some perform_diffusion_tts_fn)) (Toy.world1 (Some 2))
      = (Ok (projector, w2v), w1)
    /\ perform_eval (Toy.evaluator 5 2 1 (Some perform_diffusion_tts_fn)) (Toy.world1 (Some 2))
       = (Raise e, w')
    /\ e = IndexError /\ rng (Toy.world1 (Some 2)) = 42 /\ rng w' = 7
    /\ model_training w' = false
    /\ local_modules w'
       = module_to "cuda" <$> local_modules (Toy.world1 (Some 2))
    /\ (forall k m, local_modules w' !! k = Some m -> on_device m = "cuda")
    /\ (forall g, perform_eval (Toy.evaluator 5 2 1 (Some perform_diffusion_tts_fn))
                               (with_rng g (Toy.world1 (Some 2))) = (Raise e, w'))
    /\ (forall g, g <> rng w' ->
          rng (snd (perform_eval (Toy.evaluator 5 2 1 (Some perform_diffusion_tts_fn))
                                 (with_rng g (Toy.world1 (Some 2))))) <> g).
Proof.
  assert (Haux : exists projector w2v w1,
             load_auxiliary (Toy.evaluator 5 2 1 (Some perform_diffusion_tts_fn))
                            (Toy.world1 (Some 2)) = (Ok (projector, w2v), w1)).
  { do 3 eexists. reflexivity. }
  destruct Haux as (projector & w2v & w1 & Haux).
  assert (Hrun : exists w',
             perform_eval (Toy.evaluator 5 2 1 (Some perform_diffusion_tts_fn))
                          (Toy.world1 (Some 2)) = (Raise IndexError, w')
             /\ rng w' = 7).
  { vm_compute. eexists. split; reflexivity. }
  destruct Hrun as (w' & Hrun & Hrng).
  exists projector, w2v, w1, IndexError, w'.
  split; [exact Haux|]. split; [exact Hrun|]. split; [reflexivity|].
  split; [reflexivity|]. split; [exact Hrng|].
  exact (failure_skips_restoration _ _ _ _ _ _ _ Haux Hrun).
Defined.

Section FourEntries.

Context `{Backend}.

Lemma saved_after_auxiliary self w r w1 :
  load_auxiliary self w = (r, w1) ->
  saved_files (trace w1) = saved_files (trace w)
  /\ loaded_files (trace w1) = loaded_files (trace w)
  /\ sampler_calls (trace w1) = sampler_calls (trace w).
Proof.
  intros Haux. apply load_auxiliary_inv in Haux as (_ & _ & _ & Htr & _).
  unfold saved_files, loaded_files, sampler_calls. rewrite Htr, !omap_app. simpl.
  by rewrite !app_nil_r.
Qed.


End FourEntries.



(** ** Strided access of a distributed run *)

Section Strided.

Context `{Backend}.

Lemma range_len_lt start stop step (k : nat) :
  0 < step ->
  (k < range_len start stop step)%nat <-> start + Z.of_nat k * step < stop.
Proof.
  intros Hstep. unfold range_len.
  destruct (Z.ltb_spec start stop) as [Hlt|Hge]; [|nia].
  pose proof (Z.div_mod (stop - start + step - 1) step ltac:(lia)) as Hdm.
  pose proof (Z.mod_pos_bound (stop - start + step - 1) step Hstep) as Hmod.
  set (q := (stop - start + step - 1) / step) in *.
  assert (Hq : 0 <= q) by (apply Z.div_pos; lia).
  split; intros Hk.
  - assert (Z.of_nat k + 1 <= q) by lia. nia.
  - assert (Z.of_nat k < q) by nia. lia.
Qed.

Lemma elem_of_py_range start stop step i :
  0 < step ->
  i ∈ py_range start stop step
  <-> exists k : nat, i = start + Z.of_nat k * step /\ i < stop.
Proof.
  intros Hstep. unfold py_range. rewrite list_elem_of_fmap. split.
  - intros (k & -> & Hk). apply elem_of_seq in Hk. exists k. split; [done|].
    apply range_len_lt; [done|lia].
  - intros (k & -> & Hk). exists k. split; [done|].
    apply elem_of_seq. apply range_len_lt in Hk; [lia|done].
Qed.

Lemma elem_of_accessed len skip rank j :
  0 < skip ->
  j ∈ accessed_indices len skip rank
  <-> exists k : nat, j = Z.of_nat k * skip + rank /\ Z.of_nat k * skip < len.
Proof.
  intros Hskip. unfold accessed_indices. rewrite list_elem_of_fmap. split.
  - intros (i & -> & Hi). apply elem_of_py_range in Hi as (k & -> & Hk); [|done].
    exists k. split; lia.
  - intros (k & -> & Hk). exists (Z.of_nat k * skip). split; [done|].
    apply elem_of_py_range; [done|]. exists k. split; lia.
Qed.

(** The last stride of a ragged dataset overruns it on every rank from the
    remainder upwards. *)
Lemma ragged_overrun len ws r :
  0 <= len -> 0 < ws -> len mod ws <> 0 -> len mod ws <= r ->
  len - len mod ws ∈ py_range 0 len ws /\ len <= len - len mod ws + r.
Proof.
  intros Hlen Hws Hm Hr.
  pose proof (Z.mod_pos_bound len ws Hws) as Hbound.
  pose proof (Z.div_mod len ws ltac:(lia)) as Hdm.
  assert (Hq : 0 <= len / ws) by (apply Z.div_pos; lia).
  split; [|lia].
  apply elem_of_py_range; [done|]. exists (Z.to_nat (len / ws)).
  rewrite Z2Nat.id by done. split; lia.
Qed.

Lemma accessed_in_bounds_iff len ws :
  0 <= len -> 0 < ws ->
  (forall r, 0 <= r < ws -> Forall (fun j => 0 <= j < len) (accessed_indices len ws r))
  <-> len mod ws = 0.
Proof.
  intros Hlen Hws. split.
  - intros Hall. destruct (Z.eq_dec (len mod ws) 0) as [|Hm]; [done|exfalso].
    pose proof (Z.mod_pos_bound len ws Hws) as Hbound.
    destruct (ragged_overrun len ws (ws - 1) Hlen Hws Hm ltac:(lia)) as [Hin Hover].
    specialize (Hall (ws - 1) ltac:(lia)). rewrite Forall_forall in Hall.
    specialize (Hall (len - len mod ws + (ws - 1))).
    assert (0 <= len - len mod ws + (ws - 1) < len); [|lia].
    apply Hall. unfold accessed_indices.
    by apply (list_elem_of_fmap_2 (fun i => i + (ws - 1))).
  - intros Hm r Hr. apply Forall_forall. intros j Hj.
    apply elem_of_accessed in Hj as (k & -> & Hk); [|done].
    pose proof (Z.div_mod len ws ltac:(lia)) as Hdm. rewrite Hm in Hdm.
    assert (Z.of_nat k < len / ws) by nia. nia.
Qed.

Lemma eval_example_out_of_range self projector w2v i acc w :
  Z.of_nat (length (data self)) <= i + rank (env self) ->
  eval_example self projector w2v i acc w = (Raise IndexError, w).
Proof.
  intros Hout. unfold eval_example. destruct acc as [[gens reals] losses].
  assert (Hget : list_getitem (data self) (i + rank (env self)) = Raise IndexError).
  { rewrite list_getitem_nonneg by lia.
    rewrite (proj2 (lookup_ge_None _ _)); [done|lia]. }
  by rewrite Hget.
Qed.

Lemma eval_loop_raise_inv self projector w2v indices :
  forall acc w e w',
  eval_loop self projector w2v indices acc w = (Raise e, w') ->
  exists i acc1 w1,
    i ∈ indices /\ eval_example self projector w2v i acc1 w1 = (Raise e, w').
Proof.
  induction indices as [|i rest IH]; intros acc w e w' Hrun; simpl in Hrun.
  - discriminate.
  - apply bind_inv in Hrun as [(acc1 & w1 & Hstep & Hrest)|(e' & Hstep & [= <-])].
    + apply IH in Hrest as (j & acc2 & w2 & Hj & Hraise).
      exists j, acc2, w2. split; [by right|done].
    + exists i, acc, w. split; [by left|done].
Qed.

Lemma eval_loop_ok_in_range self projector w2v indices acc w acc' w' i :
  eval_loop self projector w2v indices acc w = (Ok acc', w') ->
  i ∈ indices ->
  i + rank (env self) < Z.of_nat (length (data self)).
Proof.
  destruct acc as [[gens reals] losses]. intros Hrun Hi.
  apply eval_loop_ok in Hrun as (_ & _ & _ & entries & _ & _ & _ & _ & Hall & _).
  apply list_elem_of_lookup in Hi as (k & Hk).
  destruct (Forall2_lookup_l _ _ _ _ _ Hall Hk) as (entry & _ & Hget).
  by apply list_getitem_ok in Hget as [? _].
Qed.

(** A run whose index list holds a position past the end of the dataset does
    not return: it stops with the index error, unless loading the helper
    models or an entry that is in range failed before. *)
Lemma overrun_fails self w0 i :
  i ∈ eval_indices self ->
  Z.of_nat (length (data self)) <= i + rank (env self) ->
  exists e w',
    perform_eval self w0 = (Raise e, w')
    /\ (e = IndexError
        \/ load_auxiliary self w0 = (Raise e, w')
        \/ exists projector w2v j acc w1,
             j ∈ eval_indices self
             /\ j + rank (env self) < Z.of_nat (length (data self))
             /\ eval_example self projector w2v j acc w1 = (Raise e, w')).
Proof.
  intros Hi Hout.
  destruct (load_auxiliary self w0) as [[[projector w2v]|e] w1] eqn:Haux.
  - rewrite (perform_eval_unfold _ _ _ _ _ Haux).
    destruct (seeded_run self projector w2v (reseed 5 w1))
      as [r w2] eqn:Hseeded.
    apply seeded_run_inv in Hseeded as (racc & w3 & Hloop & Hrest).
    destruct racc as [acc|e].
    + pose proof (eval_loop_ok_in_range _ _ _ _ _ _ _ _ _ Hloop Hi). lia.
    + destruct Hrest as [-> ->]. exists e, w3. split; [done|].
      apply eval_loop_raise_inv in Hloop as (j & acc1 & w4 & Hj & Hraise).
      destruct (Z.le_gt_cases (Z.of_nat (length (data self))) (j + rank (env self)))
        as [Hjout|Hjin].
      * rewrite (eval_example_out_of_range _ _ _ _ _ _ Hjout) in Hraise.
        left. by inversion Hraise.
      * right. right. by exists projector, w2v, j, acc1, w4.
  - exists e, w1. split; [by apply perform_eval_aux_raise|]. right. by left.
Qed.

End Strided.

(** C9.  In a run distributed over [ws > 1] workers, the worker of rank [r]
    reads the dataset at [i + r] for every [i] of [range(0, len, ws)].  These
    reads are in range on every rank exactly when [len] is a multiple of [ws].
    When [len mod ws] is not zero, every worker of rank at least [len mod ws]
    reads a position at or past [len]; its run does not return, and the
    exception is the index error unless loading the helper models or
    processing an in-range entry has already failed. *)
Theorem strided_access_overruns `{Backend} (len ws : Z) :
  0 <= len -> 1 < ws ->
  ((forall r, 0 <= r < ws -> Forall (fun j => 0 <= j < len) (accessed_indices len ws r))
   <-> len mod ws = 0)
  /\ (len mod ws <> 0 ->
      forall r, len mod ws <= r < ws ->
        (exists j, j ∈ accessed_indices len ws r /\ len <= j)
        /\ forall self w0,
             Z.of_nat (length (data self)) = len -> skip self = ws ->
             rank (env self) = r ->
             exists e w',
               perform_eval self w0 = (Raise e, w')
               /\ (e = IndexError
                   \/ load_auxiliary self w0 = (Raise e, w')
                   \/ exists projector w2v j acc w1,
                        j ∈ eval_indices self
                        /\ 0 <= j + r < len
                        /\ eval_example self projector w2v j acc w1 = (Raise e, w'))).
Proof.
  intros Hlen Hws. split; [apply accessed_in_bounds_iff; lia|].
  intros Hm r Hr.
  destruct (ragged_overrun len ws r Hlen ltac:(lia) Hm ltac:(lia)) as [Hin Hover].
  split.
  - exists (len - len mod ws + r). split; [|done].
    unfold accessed_indices. by apply (list_elem_of_fmap_2 (fun i => i + r)).
  - intros self w0 Hdata Hskip Hrank.
    assert (Hi : len - len mod ws ∈ eval_indices self).
    { unfold eval_indices. by rewrite Hdata, Hskip. }
    assert (Hout : Z.of_nat (length (data self)) <= len - len mod ws + rank (env self)).
    { by rewrite Hdata, Hrank. }
    destruct (overrun_fails self w0 _ Hi Hout)
      as (e & w' & Hrun & [->|[Haux|(projector & w2v & j & acc & w1 & Hj & Hlt & Hstep)]]).
    + exists IndexError, w'. split; [done|]. by left.
    + exists e, w'. split; [done|]. right. by left.
    + exists e, w'. split; [done|]. right. right.
      exists projector, w2v, j, acc, w1. split; [done|]. split; [|done].
      rewrite Hdata, Hrank in Hlt. split; [|done].
      unfold eval_indices in Hj. rewrite Hskip in Hj.
      apply elem_of_py_range in Hj as (k & -> & _); [|lia].
      pose proof (Z.mod_pos_bound len ws ltac:(lia)). nia.
Qed.

Lemma strided_access_overruns_witness :
  ((forall r, 0 <= r < 2 -> Forall (fun j => 0 <= j < 5) (accessed_indices 5 2 r))
   <-> 5 mod 2 = 0)
  /\ accessed_indices 5 2 1 = [1; 3; 5]
  /\ (exists w', perform_eval (Toy.evaluator 5 2 1 (Some perform_diffusion_tts_fn))
                              (Toy.world0 (Some 2)) = (Raise IndexError, w'))
  /\ exists e w',
       perform_eval (Toy.evaluator 5 2 1 (Some perform_diffusion_tts_fn))
                    (Toy.world0 (Some 2)) = (Raise e, w').
Proof.
  destruct (@strided_access_overruns Toy.backend 5 2 ltac:(lia) ltac:(lia)) as [Hiff Hover].
  split; [exact Hiff|]. split; [reflexivity|]. split.
  - vm_compute. eexists. reflexivity.
  - destruct (Hover ltac:(change (5 mod 2) with 1; lia) 1 ltac:(change (5 mod 2) with 1; lia))
      as [_ Hrun].
    destruct (Hrun (Toy.evaluator 5 2 1 (Some perform_diffusion_tts_fn))
                   (Toy.world0 (Some 2)) eq_refl eq_refl eq_refl) as (e & w' & Hfail & _).
    by exists e, w'.
Defined.

(** ** An evaluator without a sampling function *)

Section Unbound.

Context `{Backend}.

Lemma sampler_calls_ignores_io : ignores_io (fun w => sampler_calls (trace w)).
Proof.
  intros ev Hev. apply omap_ignores. destruct ev; try done. by destruct (Hev output_shape).
Qed.

Lemma py_range_head len skip :
  0 < skip -> 0 < len -> exists rest, py_range 0 len skip = 0 :: rest.
Proof.
  intros Hskip Hlen. unfold py_range.
  assert (Hpos : (0 < range_len 0 len skip)%nat) by (apply range_len_lt; lia).
  destruct (range_len 0 len skip) as [|n]; [lia|]. simpl. eauto.
Qed.

Lemma eval_example_unbound self projector w2v i acc w :
  diffusion_fn self = None ->
  exists e w',
    eval_example self projector w2v i acc w = (Raise e, w')
    /\ forall entry audio,
         list_getitem (data self) (i + rank (env self)) = Ok entry ->
         load_audio (entry_path entry) 22050 = Ok audio ->
         e = AttributeError.
Proof.
  intros Hfn. unfold eval_example, call_diffusion_fn. rewrite Hfn.
  destruct acc as [[gens reals] losses].
  destruct (list_getitem (data self) (i + rank (env self))) as [entry|e] eqn:Hget.
  - unfold bind at 1. simpl. unfold bind at 1. simpl.
    destruct (load_audio (entry_path entry) 22050) as [audio|e] eqn:Haudio.
    + unfold bind. simpl. do 2 eexists. split; [reflexivity|]. done.
    + unfold bind. simpl. do 2 eexists. split; [reflexivity|].
      intros entry' audio' [= <-]. by rewrite Haudio.
  - unfold bind. simpl. do 2 eexists. split; [reflexivity|]. done.
Qed.

Lemma frame_call_unbound {X} (f : World -> X) self audio codes text :
  diffusion_fn self = None -> frame_on f (call_diffusion_fn self audio codes text).
Proof. intros Hfn. unfold call_diffusion_fn. rewrite Hfn. apply frame_raise. Qed.

(** [perform_eval] on an evaluator whose [diffusion_fn] was never assigned. *)
Lemma perform_eval_unbound self w0 :
  diffusion_fn self = None -> 0 < skip self ->
  exists e w',
    perform_eval self w0 = (Raise e, w')
    /\ sampler_calls (trace w') = sampler_calls (trace w0)
    /\ forall projector w2v w1 entry audio,
         load_auxiliary self w0 = (Ok (projector, w2v), w1) ->
         list_getitem (data self) (0 + rank (env self)) = Ok entry ->
         load_audio (entry_path entry) 22050 = Ok audio ->
         e = AttributeError.
Proof.
  intros Hfn Hskip.
  destruct (load_auxiliary self w0) as [[[projector w2v]|e] w1] eqn:Haux.
  - pose proof (saved_after_auxiliary _ _ _ _ Haux) as (_ & _ & Hcalls1).
    rewrite (perform_eval_unfold _ _ _ _ _ Haux).
    destruct (seeded_run self projector w2v (reseed 5 w1)) as [r w2] eqn:Hseeded.
    pose proof (frame_seeded_rest (fun w => sampler_calls (trace w)) _ _ _ _ _ _
                  sampler_calls_ignores_io
                  (fun audio codes text => frame_call_unbound _ _ audio codes text Hfn)
                  Hseeded) as Hcalls2.
    simpl in Hcalls2.
    apply seeded_run_inv in Hseeded as (racc & w3 & Hloop & Hrest).
    destruct (eval_indices self) as [|i rest] eqn:Hidx.
    + (* nothing to stack *)
      simpl in Hloop. inversion Hloop; subst racc w3.
      unfold aggregate, bind, lift in Hrest. simpl in Hrest.
      inversion Hrest; subst r w2.
      exists RuntimeError. eexists. split; [reflexivity|]. split.
      { simpl. exact Hcalls1. }
      intros p v w3 entry audio _ Hentry _. exfalso.
      assert (Hlen : 0 < Z.of_nat (length (data self))).
      { apply list_getitem_ok in Hentry as [_ ?]. lia. }
      destruct (py_range_head _ _ Hskip Hlen) as (rest & Hhead).
      unfold eval_indices in Hidx. by rewrite Hhead in Hidx.
    + simpl in Hloop.
      destruct (eval_example_unbound self projector w2v i ([], [], [])
                  (snd (model_eval (reseed 5 w1))) Hfn)
        as (e & w4 & Hstep & Hwhy).
      rewrite (bind_raise _ _ _ _ _ Hstep) in Hloop.
      inversion Hloop; subst racc w3. destruct Hrest as [-> ->].
      exists e, w4. split; [reflexivity|]. split; [by rewrite Hcalls2|].
      intros p v w5 entry audio _ Hentry Haudio.
      assert (Hi : i = 0).
      { assert (Hlen : 0 < Z.of_nat (length (data self))).
        { apply list_getitem_ok in Hentry as [_ ?]. lia. }
        destruct (py_range_head _ _ Hskip Hlen) as (rest' & Hhead).
        unfold eval_indices in Hidx. rewrite Hhead in Hidx. by inversion Hidx. }
      subst i. by apply (Hwhy entry audio).
  - exists e, w1. split; [by apply perform_eval_aux_raise|]. split.
    + by apply saved_after_auxiliary in Haux as (_ & _ & ?).
    + intros p v w2 entry audio [=].
Qed.

Lemma init_unknown_mode model opt env w mode path entries :
  diffusion_type opt = Some mode ->
  mode <> "tts" -> mode <> "original_vocoder" -> mode <> "vocoder" -> mode <> "tts9_mel" ->
  eval_tsv opt = Some path ->
  load_tsv_aligned_codes path = Ok entries ->
  exists self,
    __init__ model opt env w = (Ok self, snd (set_local_modules ∅ w))
    /\ diffusion_fn self = None /\ data self = entries /\ 0 < skip self.
Proof.
  intros Hmode H1 H2 H3 H4 Htsv Hload.
  unfold __init__. rewrite Htsv, Hmode. unfold opt_get at 5. simpl.
  rewrite !bool_decide_eq_false_2 by done.
  unfold bind, ret, lift, get_world_size. simpl. rewrite Hload. simpl.
  eexists. split; [reflexivity|]. simpl. split; [done|]. split; [done|].
  destruct (world_size w) as [n|]; simpl; [|done].
  destruct (Z.ltb_spec 1 n); lia.
Qed.

End Unbound.

(** C1, as the code has it.  Constructing the evaluator with a
    [diffusion_type] that is none of [tts], [original_vocoder], [vocoder],
    [tts9_mel] returns an evaluator once the manifest is loaded: no error is
    raised, [diffusion_fn] is left unassigned, no helper module is loaded and
    nothing is sampled.  The failure is deferred to [perform_eval], which on
    that evaluator never returns and never calls the sampler; once the helper
    models and the audio of the first entry are loaded, the exception is the
    attribute error of the missing [diffusion_fn]. *)
Theorem unknown_diffusion_type_defers `{Backend} (model : Model) (opt : OptEval)
    (ev : Env) (w : World) (mode path : string) (entries : list Entry) :
  diffusion_type opt = Some mode ->
  mode <> "tts" -> mode <> "original_vocoder" -> mode <> "vocoder" -> mode <> "tts9_mel" ->
  eval_tsv opt = Some path ->
  load_tsv_aligned_codes path = Ok entries ->
  exists self w1,
    __init__ model opt ev w = (Ok self, w1)
    /\ diffusion_fn self = None
    /\ data self = entries
    /\ local_modules w1 = ∅
    /\ trace w1 = trace w /\ rng w1 = rng w
    /\ forall w0,
         exists e w',
           perform_eval self w0 = (Raise e, w')
           /\ sampler_calls (trace w') = sampler_calls (trace w0)
           /\ forall projector w2v w2 entry audio,
                load_auxiliary self w0 = (Ok (projector, w2v), w2) ->
                list_getitem (data self) (0 + rank (env self)) = Ok entry ->
                load_audio (entry_path entry) 22050 = Ok audio ->
                e = AttributeError.
Proof.
  intros Hmode H1 H2 H3 H4 Htsv Hload.
  destruct (init_unknown_mode model opt ev w mode path entries Hmode H1 H2 H3 H4 Htsv Hload)
    as (self & Hinit & Hfn & Hdata & Hskip).
  exists self, (snd (set_local_modules ∅ w)).
  split; [exact Hinit|]. split; [exact Hfn|]. split; [exact Hdata|].
  split; [reflexivity|]. split; [reflexivity|]. split; [reflexivity|].
  intros w0. by apply perform_eval_unbound.
Qed.

(** C1 as the specification words it does not hold: with the mode [bogus]
    the constructor returns an evaluator whose [diffusion_fn] is unassigned. *)
Lemma unknown_diffusion_type_constructs :
  "bogus" <> "tts" /\ "bogus" <> "original_vocoder" /\ "bogus" <> "vocoder"
  /\ "bogus" <> "tts9_mel"
  /\ diffusion_type (Toy.opts "bogus") = Some "bogus"
  /\ is_ok (fst (__init__ Toy.net (Toy.opts "bogus") (Toy.env0 0) (Toy.world0 None))) = true
  /\ exists self w1,
       __init__ Toy.net (Toy.opts "bogus") (Toy.env0 0) (Toy.world0 None) = (Ok self, w1)
       /\ diffusion_fn self = None.
Proof.
  repeat split; try done. vm_compute. do 2 eexists. split; reflexivity.
Qed.

Lemma unknown_diffusion_type_defers_witness :
  exists self w1,
    __init__ Toy.net (Toy.opts "bogus") (Toy.env0 0) (Toy.world0 None) = (Ok self, w1)
    /\ diffusion_fn self = None
    /\ length (data self) = 4%nat
    /\ local_modules w1 = ∅
    /\ exists w',
         perform_eval self (Toy.world0 None) = (Raise AttributeError, w')
         /\ sampler_calls (trace w') = [].
Proof.
  destruct (@unknown_diffusion_type_defers Toy.backend Toy.net (Toy.opts "bogus") (Toy.env0 0)
              (Toy.world0 None) "bogus" "eval.tsv" _
              eq_refl ltac:(done) ltac:(done) ltac:(done) ltac:(done) eq_refl eq_refl)
    as (self & w1 & Hinit & Hfn & Hdata & Hmods & _ & _ & Hrun).
  exists self, w1. split; [exact Hinit|]. split; [exact Hfn|].
  split; [by rewrite Hdata|]. split; [exact Hmods|].
  destruct (Hrun (Toy.world0 None)) as (e & w' & Hfail & Hcalls & Hwhy).
  exists w'. split; [|exact Hcalls].
  assert (He : e = AttributeError).
  { pose proof Hinit as Hbuilt. vm_compute in Hbuilt.
    injection Hbuilt as <- _. eapply Hwhy; reflexivity. }
  by rewrite <- He.
Defined.

(** ** The intelligibility gap *)

(** C5.  The scorer resamples the generated and the reference waveform to
    16000 Hz, normalises each as [(s - mean s) / sqrt (var s + 1e-7)], asks
    the ASR model for the loss of each (axis 1 squeezed) against the token
    sequence of the transcript, the generated waveform first, and returns the
    generated loss minus the reference loss; an exception of the ASR model is
    passed on. *)
Theorem intelligibility_loss_signed_gap `{Backend}
    (w2v : Tensor -> list Z -> Res Tensor) (sample real_sample : Tensor)
    (sample_rate : Z) (real_text : string) :
  let text_codes := text_to_sequence real_text in
  let normalized s :=
    t_div (t_sub s (t_mean s))
          (t_sqrt (t_add_float (t_var s) {| mantissa := 1; exponent := -7 |})) in
  let loss_of s := w2v (squeeze (normalized (resample s sample_rate 16000)) 1) text_codes in
  intelligibility_loss w2v sample real_sample sample_rate real_text
  = match loss_of sample with
    | Raise e => Raise e
    | Ok generated_loss =>
        match loss_of real_sample with
        | Raise e => Raise e
        | Ok reference_loss => Ok (t_sub generated_loss reference_loss)
        end
    end.
Proof.
  intros text_codes normalized loss_of. subst text_codes normalized loss_of.
  unfold intelligibility_loss, asr_loss, eps_1e_7. simpl.
  destruct (w2v _ _) as [generated_loss|e]; simpl; [|reflexivity].
  destruct (w2v _ _) as [reference_loss|e]; reflexivity.
Qed.



Lemma codes_padding_floor_witness :
  padding_needed_for_codes 330 2048 110 = Ok 15
  /\ 0 <= 15
  /\ pad_to_alignment pad_codes 330 2048 110 [1; 2; 3]
     = Ok (2048, [1; 2; 3; 0; 0; 0; 0; 0; 0; 0; 0; 0; 0; 0; 0; 0; 0; 0]).
Proof.
  destruct (@codes_padding_floor Toy.backend 330 2048 110 [1; 2; 3] ltac:(lia) ltac:(lia))
    as (Hneed & Hnn & (codes' & Hpad & Hpos & _) & _).
  split; [exact Hneed|]. split; [exact Hnn|].
  rewrite Hpad. destruct (Hpos ltac:(vm_compute; reflexivity)) as [-> _]. reflexivity.
Defined.

(** ** The Frechet distance of two sets of projections *)

(** [compute_frechet_distance] pairs each mean with the covariance of the same
    set, so exchanging its arguments exchanges the two Gaussians handed to
    [calculate_frechet_distance]. *)
Lemma compute_frechet_distance_swap `{Backend} (proj1 proj2 : Tensor) :
  compute_frechet_distance proj2 proj1
  = calculate_frechet_distance (np_mean0 (t_cpu proj2)) (np_cov (t_cpu proj2))
                               (np_mean0 (t_cpu proj1)) (np_cov (t_cpu proj1)).
Proof. reflexivity. Qed.

(** * Further properties of the evaluator *)

(** ** Construction *)

Section Construction.

Context `{Backend}.

Lemma init_inv net opt ev w self w1 :
  __init__ net opt ev w = (Ok self, w1) ->
  exists path,
    eval_tsv opt = Some path
    /\ load_tsv_aligned_codes path = Ok (data self)
    /\ model self = net /\ env self = ev /\ real_path self = path
    /\ dev self = device ev
    /\ skip self = (if is_distributed (world_size w) then default 1 (world_size w) else 1)
    /\ diffusion_fn self = strategy_of_mode (opt_get (diffusion_type opt) "tts")
    /\ local_modules w1 = modules_of_mode (opt_get (diffusion_type opt) "tts")
    /\ rng w1 = generator_of_mode (opt_get (diffusion_type opt) "tts") (rng w)
    /\ model_training w1 = model_training w
    /\ world_size w1 = world_size w /\ trace w1 = trace w.
Proof.
  unfold __init__, strategy_of_mode, modules_of_mode, generator_of_mode.
  destruct (eval_tsv opt) as [path|]; [|by inversion 1].
  unfold bind at 1. simpl. unfold bind at 1. unfold lift at 1.
  destruct (load_tsv_aligned_codes path) as [entries|e] eqn:Hload; [|by inversion 1].
  unfold bind at 1. simpl. unfold bind at 1. simpl.
  set (mode := opt_get (diffusion_type opt) "tts").
  intros Hrun. exists path.
  repeat case_bool_decide.
  - inversion Hrun; subst; simpl. done.
  - unfold bind, lift, build, set_local_module, get_local_modules, set_local_modules, ret
      in Hrun.
    simpl in Hrun. destruct load_speech_dvae; [|by inversion Hrun].
    inversion Hrun; subst; simpl. by rewrite insert_empty.
  - unfold bind, lift, build, set_local_module, get_local_modules, set_local_modules, ret
      in Hrun.
    simpl in Hrun. destruct load_speech_dvae; [|by inversion Hrun].
    inversion Hrun; subst; simpl. by rewrite insert_empty.
  - unfold bind, lift, build, set_local_module, get_local_modules, set_local_modules, ret
      in Hrun.
    simpl in Hrun. destruct load_mel_norms as [[mx mn]|]; [|by inversion Hrun].
    destruct load_speech_dvae; [|by inversion Hrun].
    simpl in Hrun. destruct load_univnet_vocoder; [|by inversion Hrun].
    inversion Hrun; subst; simpl. by rewrite insert_empty.
  - inversion Hrun; subst; simpl. done.
Qed.

End Construction.



(** X2.  The stride of a constructed evaluator is the world size when the
    process group is initialised with more than one worker and 1 otherwise;
    it is never below 1. *)
Theorem init_skip `{Backend} (net : Model) (opt : OptEval) (ev : Env)
    (w w1 : World) (self : Evaluator) :
  __init__ net opt ev w = (Ok self, w1) ->
  1 <= skip self
  /\ (world_size w = None -> skip self = 1)
  /\ (forall n, world_size w = Some n -> 1 < n -> skip self = n)
  /\ (forall n, world_size w = Some n -> n <= 1 -> skip self = 1).
Proof.
  intros Hrun.
  apply init_inv in Hrun as (path & _ & _ & _ & _ & _ & _ & Hskip & _).
  rewrite Hskip. unfold is_distributed.
  destruct (world_size w) as [n|]; simpl.
  - destruct (Z.ltb_spec 1 n); repeat split; try lia; try done;
      intros m [= <-]; lia.
  - repeat split; try lia; done.
Qed.

Lemma init_skip_witness :
  exists self w1,
    __init__ Toy.net (Toy.opts "tts") (Toy.env0 1) (Toy.world0 (Some 2)) = (Ok self, w1)
    /\ skip self = 2.
Proof.
  assert (Hrun : exists self w1,
             __init__ Toy.net (Toy.opts "tts") (Toy.env0 1) (Toy.world0 (Some 2))
             = (Ok self, w1)).
  { vm_compute. do 2 eexists. reflexivity. }
  destruct Hrun as (self & w1 & Hrun). exists self, w1. split; [exact Hrun|].
  destruct (init_skip _ _ _ _ _ _ Hrun) as (_ & _ & Hn & _).
  by apply (Hn 2).
Defined.

(** ** Sampling strategies *)

Section Strategies.

Context `{Backend}.

Lemma sample_inv self output_shape kwargs w r w' :
  sample self output_shape kwargs w = (r, w') ->
  trace w' = trace w ++ [EvSample output_shape]
  /\ model_training w' = model_training w
  /\ local_modules w' = local_modules w
  /\ world_size w' = world_size w
  /\ (r, rng w', cuda_rng w')
     = p_sample_loop (diffuser self) (model_training w) output_shape kwargs
         (rng w) (cuda_rng w).
Proof.
  unfold sample, bind, emit. simpl.
  destruct (p_sample_loop _ _ _ _ _ _) as [[r0 g] c]. by inversion 1.
Qed.

Lemma local_module_inv key w r w' :
  local_module key w = (r, w') ->
  w' = w /\ r = match local_modules w !! key with
                | Some m => Ok m
                | None => Raise KeyError
                end.
Proof.
  unfold local_module, bind, get_local_modules. simpl.
  destruct (local_modules w !! key); by inversion 1.
Qed.

Lemma pad_to_alignment_inv {X} (pad : X -> Z -> X) output_size m cf x p x' :
  pad_to_alignment pad output_size m cf x = Ok (p, x') ->
  p = ceil_multiple output_size m /\ cf <> 0.
Proof.
  unfold pad_to_alignment, padding_needed_for_codes, floordiv.
  destruct (Z.eqb_spec cf 0); [done|]. simpl. by inversion 1.
Qed.

Lemma pad_to_alignment_zero {X} (pad : X -> Z -> X) output_size m x :
  pad_to_alignment pad output_size m 0 x = Raise ZeroDivisionError.
Proof. reflexivity. Qed.

Lemma ceil_multiple_divide base m : 0 < m -> (m | ceil_multiple base m).
Proof.
  intros Hm. destruct (ceil_multiple_spec base m Hm) as (q & -> & _). by exists q.
Qed.

(** The three strategies that sample a waveform ask the sampler, once, for a
    [(1, 1, p)] tensor with [p] a multiple of 2048. *)
Lemma waveform_strategy_ok self fn audio codes text w sample ref sample_rate w' :
  diffusion_fn self = Some fn ->
  fn <> perform_diffusion_tts9_mel_from_codes_fn ->
  call_diffusion_fn self audio codes text w = (Ok (sample, ref, sample_rate), w') ->
  sample_rate = 5500
  /\ exists p, trace w' = trace w ++ [EvSample [1; 1; p]] /\ (2048 | p).
Proof.
  intros Hfn Hne. unfold call_diffusion_fn. rewrite Hfn.
  destruct fn; [| | |done]; intros Hrun.
  - unfold perform_diffusion_tts in Hrun.
    apply bind_ok_inv in Hrun as ([p codes'] & w1 & Hpad & Hrun).
    apply lift_inv in Hpad as [Hpad ->]. symmetry in Hpad.
    apply pad_to_alignment_inv in Hpad as [-> _].
    apply bind_ok_inv in Hrun as (gen & w2 & Hsample & Hrun).
    apply sample_inv in Hsample as (Htr & _).
    inversion Hrun; subst. split; [done|].
    eexists. split; [exact Htr|]. by apply ceil_multiple_divide.
  - unfold perform_original_diffusion_vocoder in Hrun.
    apply bind_ok_inv in Hrun as (dvae & w1 & Hm & Hrun). apply local_module_inv in Hm as [-> _].
    apply bind_ok_inv in Hrun as (mel_codes & w1 & Hc & Hrun). apply lift_inv in Hc as [_ ->].
    apply bind_ok_inv in Hrun as (dvae' & w1 & Hm & Hrun). apply local_module_inv in Hm as [-> _].
    apply bind_ok_inv in Hrun as (mel & w1 & Hc & Hrun). apply lift_inv in Hc as [_ ->].
    apply bind_ok_inv in Hrun as (os & w1 & Hc & Hrun). apply lift_inv in Hc as [_ ->].
    apply bind_ok_inv in Hrun as (ml & w1 & Hc & Hrun). apply lift_inv in Hc as [_ ->].
    apply bind_ok_inv in Hrun as (cf & w1 & Hc & Hrun). apply lift_inv in Hc as [_ ->].
    apply bind_ok_inv in Hrun as ([p mel'] & w1 & Hpad & Hrun).
    apply lift_inv in Hpad as [Hpad ->]. symmetry in Hpad.
    apply pad_to_alignment_inv in Hpad as [-> _].
    apply bind_ok_inv in Hrun as (gen & w2 & Hsample & Hrun).
    apply sample_inv in Hsample as (Htr & _).
    inversion Hrun; subst. split; [done|].
    eexists. split; [exact Htr|]. by apply ceil_multiple_divide.
  - unfold perform_diffusion_vocoder in Hrun.
    apply bind_ok_inv in Hrun as (dvae & w1 & Hm & Hrun). apply local_module_inv in Hm as [-> _].
    apply bind_ok_inv in Hrun as (mel_codes & w1 & Hc & Hrun). apply lift_inv in Hc as [_ ->].
    apply bind_ok_inv in Hrun as (os & w1 & Hc & Hrun). apply lift_inv in Hc as [_ ->].
    apply bind_ok_inv in Hrun as (cf & w1 & Hc & Hrun). apply lift_inv in Hc as [_ ->].
    apply bind_ok_inv in Hrun as ([p codes'] & w1 & Hpad & Hrun).
    apply lift_inv in Hpad as [Hpad ->]. symmetry in Hpad.
    apply pad_to_alignment_inv in Hpad as [-> _].
    apply bind_ok_inv in Hrun as (gen & w2 & Hsample & Hrun).
    apply sample_inv in Hsample as (Htr & _).
    inversion Hrun; subst. split; [done|].
    eexists. split; [exact Htr|]. by apply ceil_multiple_divide.
Qed.

Lemma tts9_strategy_ok self audio codes text w sample ref sample_rate w' :
  perform_diffusion_tts9_mel_from_codes self audio codes text w
    = (Ok (sample, ref, sample_rate), w') ->
  sample_rate = 24000
  /\ exists output_shape,
       trace w' = trace w ++ [EvSample output_shape]
       /\ match alignment_size (model self) with
          | Some m => exists p, output_shape = [1; 100; p] /\ p = ceil_multiple
                        (default 0 (last (shape (wav_to_univnet_mel
                           (unsqueeze (resample audio 22050 24000) 0))))) m
          | None => output_shape
                    = shape (wav_to_univnet_mel (unsqueeze (resample audio 22050 24000) 0))
          end.
Proof.
  unfold perform_diffusion_tts9_mel_from_codes. intros Hrun.
  apply bind_ok_inv in Hrun as (dvae & w1 & Hm & Hrun). apply local_module_inv in Hm as [-> _].
  apply bind_ok_inv in Hrun as (mel_codes & w1 & Hc & Hrun). apply lift_inv in Hc as [_ ->].
  apply bind_ok_inv in Hrun as (os & w1 & Hos & Hrun). apply lift_inv in Hos as [Hos ->].
  apply bind_ok_inv in Hrun as (cf & w1 & Hc & Hrun). apply lift_inv in Hc as [_ ->].
  apply bind_ok_inv in Hrun as ([output_shape codes'] & w1 & Hshape & Hrun).
  apply bind_ok_inv in Hrun as (gen & w2 & Hsample & Hrun).
  apply sample_inv in Hsample as (Htr & _ & Hmods & _).
  apply bind_ok_inv in Hrun as (voc & w3 & Hm & Hrun). apply local_module_inv in Hm as [-> _].
  apply bind_ok_inv in Hrun as (gw & w3 & Hc & Hrun). apply lift_inv in Hc as [_ ->].
  apply bind_ok_inv in Hrun as (voc' & w3 & Hm & Hrun). apply local_module_inv in Hm as [-> _].
  apply bind_ok_inv in Hrun as (rd & w3 & Hc & Hrun). apply lift_inv in Hc as [_ ->].
  inversion Hrun; subst. split; [done|].
  exists output_shape.
  destruct (alignment_size (model self)) as [m|].
  - apply bind_ok_inv in Hshape as ([p c] & w4 & Hpad & Hret).
    apply lift_inv in Hpad as [Hpad ->]. symmetry in Hpad.
    apply pad_to_alignment_inv in Hpad as [-> _].
    inversion Hret; subst. split; [exact Htr|]. eexists. split; [done|].
    unfold shape_last in Hos. destruct (last _); by inversion Hos.
  - inversion Hshape; subst. by split.
Qed.

End Strategies.

(** X3.  Whichever of [perform_diffusion_tts],
    [perform_original_diffusion_vocoder] and [perform_diffusion_vocoder] is
    bound, a call that returns has called the sampler exactly once, for a
    tensor of shape [(1, 1, p)] with [p] a multiple of 2048, and hands back
    5500 as the rate to compare at (also the original vocoder, which samples
    at 11025). *)
Theorem waveform_strategies_aligned `{Backend} (self : Evaluator) (fn : Strategy)
    (audio : Tensor) (codes : list Z) (text : string) (w w' : World)
    (sample ref : Tensor) (sample_rate : Z) :
  diffusion_fn self = Some fn ->
  fn <> perform_diffusion_tts9_mel_from_codes_fn ->
  call_diffusion_fn self audio codes text w = (Ok (sample, ref, sample_rate), w') ->
  sample_rate = 5500
  /\ exists p,
       sampler_calls (trace w') = sampler_calls (trace w) ++ [[1; 1; p]]
       /\ (2048 | p)
       /\ saved_files (trace w') = saved_files (trace w)
       /\ local_modules w' = local_modules w
       /\ model_training w' = model_training w.
Proof.
  intros Hfn Hne Hrun.
  pose proof (frame_run _ _ _ _ _
                (frame_call_diffusion_fn local_modules self audio codes text modules_stable)
                Hrun) as Hmods.
  pose proof (frame_run _ _ _ _ _
                (frame_call_diffusion_fn model_training self audio codes text training_stable)
                Hrun) as Htrain.
  destruct (waveform_strategy_ok _ _ _ _ _ _ _ _ _ _ Hfn Hne Hrun) as (-> & p & Htr & Hdiv).
  split; [done|]. exists p.
  unfold sampler_calls, saved_files. rewrite Htr, !omap_app. simpl.
  by rewrite app_nil_r.
Qed.

Lemma waveform_strategies_aligned_witness :
  exists sample ref w',
    call_diffusion_fn (Toy.evaluator 4 1 0 (Some perform_original_diffusion_vocoder_fn))
                      7 [1; 2; 3] "x" (Toy.world1 None)
      = (Ok (sample, ref, 5500), w')
    /\ exists p,
         sampler_calls (trace w') = sampler_calls (trace (Toy.world1 None)) ++ [[1; 1; p]]
         /\ (2048 | p).
Proof.
  assert (Hrun : exists sample ref w',
             call_diffusion_fn
               (Toy.evaluator 4 1 0 (Some perform_original_diffusion_vocoder_fn))
               7 [1; 2; 3] "x" (Toy.world1 None) = (Ok (sample, ref, 5500), w')).
  { vm_compute. do 3 eexists. reflexivity. }
  destruct Hrun as (sample & ref & w' & Hrun).
  exists sample, ref, w'. split; [exact Hrun|].
  destruct (waveform_strategies_aligned
              (Toy.evaluator 4 1 0 (Some perform_original_diffusion_vocoder_fn))
              perform_original_diffusion_vocoder_fn
              _ _ _ _ _ _ _ _ eq_refl ltac:(done) Hrun) as (_ & p & Hp & Hdiv & _).
  by exists p.
Defined.

(** X4.  [perform_diffusion_tts9_mel_from_codes], when it returns, has called
    the sampler exactly once and hands back 24000 as the rate to compare at.
    When the model has an [alignment_size] the sampler is asked for a
    [(1, 100, p)] tensor with [p] the aligned length of the conditioning mel;
    when it has none the sampler is asked for the shape of that mel. *)
Theorem tts9_strategy_shape `{Backend} (self : Evaluator)
    (audio : Tensor) (codes : list Z) (text : string) (w w' : World)
    (sample ref : Tensor) (sample_rate : Z) :
  diffusion_fn self = Some perform_diffusion_tts9_mel_from_codes_fn ->
  call_diffusion_fn self audio codes text w = (Ok (sample, ref, sample_rate), w') ->
  let univnet_mel := wav_to_univnet_mel (unsqueeze (resample audio 22050 24000) 0) in
  sample_rate = 24000
  /\ exists output_shape,
       sampler_calls (trace w') = sampler_calls (trace w) ++ [output_shape]
       /\ (alignment_size (model self) = None -> output_shape = shape univnet_mel)
       /\ (forall m, alignment_size (model self) = Some m -> 0 < m ->
             exists p, output_shape = [1; 100; p] /\ (m | p)
                       /\ forall n, last (shape univnet_mel) = Some n -> n <= p).
Proof.
  intros Hfn Hrun univnet_mel. unfold call_diffusion_fn in Hrun. rewrite Hfn in Hrun.
  destruct (tts9_strategy_ok _ _ _ _ _ _ _ _ _ Hrun) as (-> & sh & Htr & Hshape).
  split; [done|]. exists sh. split.
  { unfold sampler_calls. rewrite Htr, omap_app. done. }
  fold univnet_mel in Hshape.
  destruct (alignment_size (model self)) as [m|].
  - split; [done|]. intros m' [= <-] Hm.
    destruct Hshape as (p & -> & ->). eexists. split; [done|].
    split; [by apply ceil_multiple_divide|].
    intros n ->. simpl. by apply ceil_multiple_ge.
  - split; [done|]. by intros m [=].
Qed.

Lemma tts9_strategy_shape_witness :
  exists sample ref w',
    call_diffusion_fn
      (Toy.evaluator 4 1 0 (Some perform_diffusion_tts9_mel_from_codes_fn))
      7 [1; 2; 3] "x"
      (snd (__init__ Toy.net (Toy.opts "tts9_mel") (Toy.env0 0) (Toy.world0 None)))
      = (Ok (sample, ref, 24000), w')
    /\ sampler_calls (trace w') = [[1; 4096]].
Proof.
  assert (Hrun : exists sample ref w',
             call_diffusion_fn
               (Toy.evaluator 4 1 0 (Some perform_diffusion_tts9_mel_from_codes_fn))
               7 [1; 2; 3] "x"
               (snd (__init__ Toy.net (Toy.opts "tts9_mel") (Toy.env0 0) (Toy.world0 None)))
             = (Ok (sample, ref, 24000), w')).
  { vm_compute. do 3 eexists. reflexivity. }
  destruct Hrun as (sample & ref & w' & Hrun).
  exists sample, ref, w'. split; [exact Hrun|].
  destruct (tts9_strategy_shape
              (Toy.evaluator 4 1 0 (Some perform_diffusion_tts9_mel_from_codes_fn))
              _ _ _ _ _ _ _ _ eq_refl Hrun)
    as (_ & sh & Hcalls & Hnone & _).
  rewrite Hcalls, (Hnone eq_refl). reflexivity.
Defined.

(** X5.  When the codec encodes the audio to an empty code sequence,
    [perform_diffusion_vocoder] and [perform_diffusion_tts9_mel_from_codes]
    divide by its length: they raise [ZeroDivisionError] before the sampler is
    called and leave the world as it was.  For the latter this is so whether
    or not the model has an [alignment_size], the quotient being taken before
    the attribute is looked at. *)
Theorem empty_codes_zero_division `{Backend} (self : Evaluator) (audio : Tensor)
    (codes : list Z) (text : string) (sample_rate n n' : Z) (w : World) (dvae : Module) :
  local_modules w !! "dvae" = Some dvae ->
  convert_mel_to_codes dvae (wav_to_mel audio) = Ok [] ->
  shape_last (unsqueeze (resample audio 22050 sample_rate) 0) = Ok n ->
  shape_last (wav_to_univnet_mel (unsqueeze (resample audio 22050 24000) 0)) = Ok n' ->
  perform_diffusion_vocoder self audio codes text sample_rate w
    = (Raise ZeroDivisionError, w)
  /\ perform_diffusion_tts9_mel_from_codes self audio codes text w
     = (Raise ZeroDivisionError, w).
Proof.
  intros Hdvae Hcodec Hn Hn'. split.
  - unfold perform_diffusion_vocoder, local_module, bind, get_local_modules, lift, ret.
    simpl. rewrite Hdvae. simpl. rewrite Hcodec, Hn. reflexivity.
  - unfold perform_diffusion_tts9_mel_from_codes, local_module, bind,
      get_local_modules, lift, ret.
    simpl. rewrite Hdvae. simpl. rewrite Hcodec, Hn'. reflexivity.
Qed.

Lemma empty_codes_zero_division_witness :
  perform_diffusion_vocoder (Toy.mute_evaluator (Some perform_diffusion_vocoder_fn))
     0 [1; 2; 3] "x" 5500 Toy.mute_world
    = (Raise ZeroDivisionError, Toy.mute_world)
  /\ perform_diffusion_tts9_mel_from_codes
       (Toy.mute_evaluator (Some perform_diffusion_vocoder_fn))
       0 [1; 2; 3] "x" Toy.mute_world
     = (Raise ZeroDivisionError, Toy.mute_world).
Proof.
  apply (@empty_codes_zero_division Toy.mute
           (Toy.mute_evaluator (Some perform_diffusion_vocoder_fn))
           0 [1; 2; 3] "x" 5500 4096 4096
           Toy.mute_world {| kind := Dvae; on_device := "cpu" |}); reflexivity.
Defined.

(** ** More on the padding *)

(** X6.  In [perform_diffusion_tts] the output size is the number of codes
    times the compression factor.  The padded code sequence, expanded by the
    compression factor again, never exceeds the padded output size and falls
    short of it by less than one compression factor; padding only ever
    lengthens the sequence. *)
Theorem padded_codes_cover_output (codes : list Z) (m cf : Z) :
  0 < m -> 0 < cf ->
  exists padded_size codes',
    pad_to_alignment pad_codes (Z.of_nat (length codes) * cf) m cf codes
      = Ok (padded_size, codes')
    /\ 0 <= padded_size - Z.of_nat (length codes') * cf < cf
    /\ (length codes <= length codes')%nat
    /\ take (length codes) codes' = codes.
Proof.
  intros Hm Hcf.
  pose proof (pad_to_alignment_codes (Z.of_nat (length codes) * cf) m cf codes Hm Hcf) as Hpad.
  pose proof (ceil_multiple_ge (Z.of_nat (length codes) * cf) m Hm) as Hge.
  set (p := ceil_multiple (Z.of_nat (length codes) * cf) m) in *.
  set (added := p - Z.of_nat (length codes) * cf) in *.
  assert (Hq : 0 <= added / cf) by (apply Z.div_pos; lia).
  pose proof (Z.div_mod added cf ltac:(lia)) as Hdm.
  pose proof (Z.mod_pos_bound added cf Hcf) as Hmod.
  do 2 eexists. split; [exact Hpad|].
  rewrite length_app, length_replicate. split; [|split].
  - rewrite Nat2Z.inj_add, Z2Nat.id by lia. nia.
  - lia.
  - by rewrite take_app_length.
Qed.

Lemma padded_codes_cover_output_witness :
  exists padded_size codes',
    pad_to_alignment pad_codes (Z.of_nat (length [1; 2; 3]) * 110) 2048 110 [1; 2; 3]
      = Ok (padded_size, codes')
    /\ 0 <= padded_size - Z.of_nat (length codes') * 110 < 110
    /\ (length [1; 2; 3] <= length codes')%nat
    /\ take (length [1; 2; 3]) codes' = [1; 2; 3].
Proof. apply (padded_codes_cover_output [1; 2; 3] 2048 110); lia. Defined.

(** X7.  An output size that already is a multiple of the alignment is not
    padded: the block hands back the size and the conditioning it was given,
    whatever the non-zero compression factor. *)
Theorem aligned_output_not_padded {X} (pad : X -> Z -> X) (output_size m cf : Z) (x : X) :
  0 <= output_size -> 0 < m -> (m | output_size) -> cf <> 0 ->
  pad_to_alignment pad output_size m cf x = Ok (output_size, x)
  /\ padding_needed_for_codes output_size m cf = Ok 0.
Proof.
  intros Hos Hm [q Hq] Hcf.
  assert (Hceil : ceil_multiple output_size m = output_size).
  { rewrite ceil_multiple_closed by done.
    replace (- output_size) with ((- q) * m) by lia.
    rewrite Z.mod_mul by lia. lia. }
  assert (Hneed : padding_needed_for_codes output_size m cf = Ok 0).
  { unfold padding_needed_for_codes, floordiv. rewrite Hceil.
    destruct (Z.eqb_spec cf 0); [done|].
    by replace (output_size - output_size) with 0 by lia. }
  split; [|exact Hneed].
  unfold pad_to_alignment. rewrite Hneed, Hceil. reflexivity.
Qed.

Lemma aligned_output_not_padded_witness :
  pad_to_alignment pad_codes 4096 2048 1024 [1; 2; 3; 4] = Ok (4096, [1; 2; 3; 4])
  /\ padding_needed_for_codes 4096 2048 1024 = Ok 0.
Proof.
  apply (aligned_output_not_padded pad_codes 4096 2048 1024 [1; 2; 3; 4]);
    [lia | lia | by exists 2 | lia].
Defined.

(** ** The slices of a distributed run *)

(** X8.  The strided slices of the workers partition the dataset: every
    position below [len] is read by the worker of rank [j mod ws] and by no
    other rank below [ws]. *)
Theorem every_entry_has_one_reader (len ws j : Z) :
  0 < ws -> 0 <= j < len ->
  0 <= j mod ws < ws
  /\ j ∈ accessed_indices len ws (j mod ws)
  /\ forall r, 0 <= r < ws -> j ∈ accessed_indices len ws r -> r = j mod ws.
Proof.
  intros Hws Hj.
  pose proof (Z.mod_pos_bound j ws Hws) as Hbound.
  pose proof (Z.div_mod j ws ltac:(lia)) as Hdm.
  assert (Hq : 0 <= j / ws) by (apply Z.div_pos; lia).
  split; [done|]. split.
  - apply elem_of_accessed; [done|]. exists (Z.to_nat (j / ws)).
    rewrite Z2Nat.id by done. split; lia.
  - intros r Hr Hin. apply elem_of_accessed in Hin as (k & Hk & _); [|done].
    apply (Z.mod_unique_pos j ws (Z.of_nat k) r); lia.
Qed.

Lemma every_entry_has_one_reader_witness :
  0 <= 3 mod 2 < 2
  /\ 3 ∈ accessed_indices 4 2 (3 mod 2)
  /\ forall r, 0 <= r < 2 -> 3 ∈ accessed_indices 4 2 r -> r = 3 mod 2.
Proof. apply (every_entry_has_one_reader 4 2 3); lia. Defined.

(** ** The effects of a run, in order *)

Section RunTrace.

Context `{Backend}.

Lemma call_diffusion_fn_trace self fn audio codes text w sample ref sample_rate w' :
  diffusion_fn self = Some fn ->
  call_diffusion_fn self audio codes text w = (Ok (sample, ref, sample_rate), w') ->
  sample_rate = comparison_rate fn
  /\ exists output_shape, trace w' = trace w ++ [EvSample output_shape].
Proof.
  intros Hfn Hrun.
  assert (Hcases : fn = perform_diffusion_tts9_mel_from_codes_fn
                   \/ fn <> perform_diffusion_tts9_mel_from_codes_fn).
  { destruct fn; (by left) || (by right). }
  destruct Hcases as [->|Hne].
  - unfold call_diffusion_fn in Hrun. rewrite Hfn in Hrun.
    destruct (tts9_strategy_ok _ _ _ _ _ _ _ _ _ Hrun) as (-> & sh & Htr & _).
    split; [done|]. by exists sh.
  - destruct (waveform_strategy_ok _ _ _ _ _ _ _ _ _ _ Hfn Hne Hrun) as (-> & p & Htr & _).
    split; [by destruct fn|]. by eexists.
Qed.

Lemma save_audio_trace self name sample sample_rate w u w' :
  save_audio self name sample sample_rate w = (Ok u, w') ->
  trace w' = trace w ++ [EvSave (osp_join (save_path self) [name]) sample_rate].
Proof.
  unfold save_audio. intros Hrun.
  apply bind_ok_inv in Hrun as (? & w1 & Hemit & Hsave).
  apply emit_inv in Hemit as (_ & _ & _ & _ & _ & Htr).
  apply lift_inv in Hsave as [_ ->]. exact Htr.
Qed.

Lemma eval_example_trace self fn projector w2v i gens reals losses w acc' w' :
  diffusion_fn self = Some fn ->
  eval_example self projector w2v i (gens, reals, losses) w = (Ok acc', w') ->
  exists entry output_shape g r l,
    list_getitem (data self) (i + rank (env self)) = Ok entry
    /\ acc' = (gens ++ [g], reals ++ [r], losses ++ [l])
    /\ trace w' = trace w ++ example_trace self fn (i, entry, output_shape).
Proof.
  intros Hfn. unfold eval_example. intros Hrun.
  apply bind_ok_inv in Hrun as (entry & w1 & Hentry & Hrun).
  apply lift_inv in Hentry as [Hentry ->].
  apply bind_ok_inv in Hrun as (? & w2 & Hemit & Hrun).
  apply emit_inv in Hemit as (_ & _ & _ & _ & _ & Htr2).
  apply bind_ok_inv in Hrun as (audio & w3 & Haudio & Hrun).
  apply lift_inv in Haudio as [_ ->].
  apply bind_ok_inv in Hrun as ([[sample ref] sample_rate] & w4 & Hcall & Hrun).
  destruct (call_diffusion_fn_trace _ _ _ _ _ _ _ _ _ _ Hfn Hcall) as (-> & sh & Htr4).
  apply bind_ok_inv in Hrun as (g & w5 & Hg & Hrun). apply lift_inv in Hg as [_ ->].
  apply bind_ok_inv in Hrun as (r & w6 & Hr & Hrun). apply lift_inv in Hr as [_ ->].
  apply bind_ok_inv in Hrun as (l & w7 & Hl & Hrun). apply lift_inv in Hl as [_ ->].
  apply bind_ok_inv in Hrun as (? & w8 & Hsave1 & Hrun).
  apply save_audio_trace in Hsave1.
  apply bind_ok_inv in Hrun as (? & w9 & Hsave2 & Hrun).
  apply save_audio_trace in Hsave2.
  inversion Hrun; subst acc' w9.
  exists entry, sh, (t_cpu g), (t_cpu r), l.
  split; [by symmetry|]. split; [done|].
  rewrite Hsave2, Hsave1, Htr4, Htr2. simpl. by rewrite <- !app_assoc.
Qed.

Lemma eval_loop_trace self fn projector w2v indices :
  diffusion_fn self = Some fn ->
  forall gens reals losses w acc' w',
  eval_loop self projector w2v indices (gens, reals, losses) w = (Ok acc', w') ->
  exists steps gs rs ls,
    map (fun s => s.1.1) steps = indices
    /\ Forall (fun s => list_getitem (data self) (s.1.1 + rank (env self)) = Ok s.1.2) steps
    /\ acc' = (gens ++ gs, reals ++ rs, losses ++ ls)
    /\ length gs = length indices /\ length rs = length indices
    /\ length ls = length indices
    /\ trace w' = trace w ++ concat (map (example_trace self fn) steps).
Proof.
  intros Hfn.
  induction indices as [|i rest IH]; intros gens reals losses w acc' w' Hrun; simpl in Hrun.
  - inversion Hrun; subst. exists [], [], [], []. simpl. by rewrite !app_nil_r.
  - apply bind_ok_inv in Hrun as (acc1 & w1 & Hstep & Hrest).
    apply (eval_example_trace _ fn) in Hstep
      as (entry & sh & g & r & l & Hentry & -> & Htr1); [|done].
    apply IH in Hrest as (steps & gs & rs & ls & Hidx & Hall & -> & Hgs & Hrs & Hls & Htr).
    exists ((i, entry, sh) :: steps), (g :: gs), (r :: rs), (l :: ls).
    simpl. rewrite Hidx, Hgs, Hrs, Hls, <- !app_assoc.
    repeat split; try done.
    + by constructor.
    + rewrite Htr, Htr1, <- !app_assoc. done.
Qed.

Lemma reduce_mean_inv t n w r w' :
  reduce_mean t n w = (r, w') ->
  trace w' = trace w ++ [EvAllReduce]
  /\ rng w' = rng w /\ model_training w' = model_training w
  /\ local_modules w' = local_modules w /\ world_size w' = world_size w
  /\ r = res_bind (all_reduce t) (fun t' => Ok (t_div_int t' n)).
Proof.
  unfold reduce_mean, bind, emit, lift, ret. simpl.
  destruct (all_reduce t); by inversion 1.
Qed.

Lemma aggregate_ok gens reals losses w fd il w' :
  aggregate (gens, reals, losses) w = (Ok (fd, il), w') ->
  gens <> [] /\ reals <> [] /\ losses <> []
  /\ trace w' = trace w ++ reduce_trace (world_size w)
  /\ exists fd0,
       compute_frechet_distance (stack gens) (stack reals) = Ok fd0
       /\ if is_distributed (world_size w) then
            exists fd1 il1,
              all_reduce fd0 = Ok fd1 /\ all_reduce (t_mean (stack losses)) = Ok il1
              /\ fd = t_div_int fd1 (default 1 (world_size w))
              /\ il = t_div_int il1 (default 1 (world_size w))
          else fd = fd0 /\ il = t_mean (stack losses).
Proof.
  unfold aggregate. intros Hrun.
  apply bind_ok_inv in Hrun as (sg & w1 & Hsg & Hrun). apply lift_inv in Hsg as [Hsg ->].
  apply bind_ok_inv in Hrun as (sr & w1 & Hsr & Hrun). apply lift_inv in Hsr as [Hsr ->].
  apply bind_ok_inv in Hrun as (sl & w1 & Hsl & Hrun). apply lift_inv in Hsl as [Hsl ->].
  apply bind_ok_inv in Hrun as (fd0 & w1 & Hfd & Hrun). apply lift_inv in Hfd as [Hfd ->].
  apply bind_ok_inv in Hrun as (ws & w1 & Hws & Hrun). inversion Hws; subst ws w1.
  assert (Hgens : gens <> [] /\ sg = stack gens).
  { destruct gens; [done|]. by inversion Hsg. }
  assert (Hreals : reals <> [] /\ sr = stack reals).
  { destruct reals; [done|]. by inversion Hsr. }
  assert (Hlosses : losses <> [] /\ sl = stack losses).
  { destruct losses; [done|]. by inversion Hsl. }
  destruct Hgens as [? ->], Hreals as [? ->], Hlosses as [? ->].
  split; [done|]. split; [done|]. split; [done|].
  unfold reduce_trace.
  destruct (is_distributed (world_size w)).
  - apply bind_ok_inv in Hrun as (fd' & w1 & Hr1 & Hrun).
    apply reduce_mean_inv in Hr1 as (Htr1 & _ & _ & _ & Hws1 & Hfd1).
    apply bind_ok_inv in Hrun as (il' & w2 & Hr2 & Hrun).
    apply reduce_mean_inv in Hr2 as (Htr2 & _ & _ & _ & _ & Hil1).
    inversion Hrun; subst. split.
    { rewrite Htr2, Htr1, <- app_assoc. done. }
    exists fd0. split; [done|].
    destruct (all_reduce fd0) as [fd1|]; [|done].
    destruct (all_reduce (t_mean (stack losses))) as [il1|]; [|done].
    exists fd1, il1. simpl in Hfd1, Hil1. inversion Hfd1. inversion Hil1. done.
  - inversion Hrun; subst. split; [by rewrite app_nil_r|].
    exists fd. by split.
Qed.

Lemma world_size_stable : strategy_stable world_size.
Proof. by split. Qed.

Lemma world_size_ignores_io : ignores_io world_size.
Proof. by intros ev _ w. Qed.

End RunTrace.

(** X9.  A run of [perform_eval] that returns has done, in this order and
    nothing else: created the save directory; then for every index [i] of its
    slice loaded the audio of the entry at [i + rank], called the sampler once
    and saved the generated and the reference waveform as
    [<rank>_<i>_gen.wav] and [<rank>_<i>_real.wav], both at the rate of the
    sampling function; then, in a distributed run only, reduced twice over the
    workers. *)
Theorem run_effects_in_order `{Backend} (self : Evaluator) (fn : Strategy)
    (w w' : World) (d : gmap string Tensor) :
  0 < skip self ->
  diffusion_fn self = Some fn ->
  perform_eval self w = (Ok d, w') ->
  exists steps,
    map (fun s => s.1.1) steps = eval_indices self
    /\ Forall (fun s => list_getitem (data self) (s.1.1 + rank (env self)) = Ok s.1.2) steps
    /\ trace w'
       = trace w ++ [EvMakedirs (save_path self)]
         ++ concat (map (example_trace self fn) steps)
         ++ reduce_trace (world_size w).
Proof.
  intros _ Hfn Hrun.
  apply perform_eval_ok in Hrun as (projector & w2v & w1 & fd & il & w2 & Haux & Hseeded & -> & ->).
  apply load_auxiliary_inv in Haux as (_ & _ & Hws & Htr1 & _).
  apply seeded_run_ok in Hseeded as ([[gens reals] losses] & w3 & Hloop & Hagg).
  assert (Hws3 : world_size w3 = world_size w1).
  { apply (frame_run world_size _ _ _ _
             (frame_eval_loop world_size self projector w2v _ world_size_ignores_io
                (fun audio codes text =>
                   frame_call_diffusion_fn world_size self audio codes text world_size_stable)
                _) Hloop). }
  apply (eval_loop_trace _ fn) in Hloop
    as (steps & gs & rs & ls & Hidx & Hall & _ & _ & _ & _ & Htr3); [|done].
  apply aggregate_ok in Hagg as (_ & _ & _ & Htr2 & _).
  exists steps. split; [done|]. split; [done|].
  simpl. rewrite Htr2, Htr3, Hws3, Hws. simpl. rewrite Htr1, <- !app_assoc. done.
Qed.

Lemma run_effects_in_order_witness :
  exists d w',
    perform_eval (Toy.evaluator 4 2 1 (Some perform_diffusion_tts_fn)) (Toy.world0 (Some 2))
      = (Ok d, w')
    /\ trace w'
       = [EvMakedirs "/tmp/test_eval/../audio_eval/558";
          EvLoadAudio "clip1.wav"; EvSample [1; 1; 2048];
          EvSave "/tmp/test_eval/../audio_eval/558/1_0_gen.wav" 5500;
          EvSave "/tmp/test_eval/../audio_eval/558/1_0_real.wav" 5500;
          EvLoadAudio "clip3.wav"; EvSample [1; 1; 2048];
          EvSave "/tmp/test_eval/../audio_eval/558/1_2_gen.wav" 5500;
          EvSave "/tmp/test_eval/../audio_eval/558/1_2_real.wav" 5500;
          EvAllReduce; EvAllReduce]
    /\ exists steps,
         map (fun s => s.1.1) steps = [0; 2]
         /\ trace w'
            = trace (Toy.world0 (Some 2))
              ++ [EvMakedirs (save_path (Toy.evaluator 4 2 1 (Some perform_diffusion_tts_fn)))]
              ++ concat (map (example_trace
                                (Toy.evaluator 4 2 1 (Some perform_diffusion_tts_fn))
                                perform_diffusion_tts_fn) steps)
              ++ reduce_trace (Some 2).
Proof.
  assert (Hrun : exists d w',
             perform_eval (Toy.evaluator 4 2 1 (Some perform_diffusion_tts_fn))
                          (Toy.world0 (Some 2)) = (Ok d, w')
             /\ trace w'
                = [EvMakedirs "/tmp/test_eval/../audio_eval/558";
                   EvLoadAudio "clip1.wav"; EvSample [1; 1; 2048];
                   EvSave "/tmp/test_eval/../audio_eval/558/1_0_gen.wav" 5500;
                   EvSave "/tmp/test_eval/../audio_eval/558/1_0_real.wav" 5500;
                   EvLoadAudio "clip3.wav"; EvSample [1; 1; 2048];
                   EvSave "/tmp/test_eval/../audio_eval/558/1_2_gen.wav" 5500;
                   EvSave "/tmp/test_eval/../audio_eval/558/1_2_real.wav" 5500;
                   EvAllReduce; EvAllReduce]).
  { vm_compute. do 2 eexists. split; reflexivity. }
  destruct Hrun as (d & w' & Hrun & Htrace). exists d, w'.
  split; [exact Hrun|]. split; [exact Htrace|].
  destruct (run_effects_in_order
              (Toy.evaluator 4 2 1 (Some perform_diffusion_tts_fn))
              perform_diffusion_tts_fn _ _ _ ltac:(done) eq_refl Hrun)
    as (steps & Hidx & _ & Htr).
  exists steps. split; [exact Hidx|exact Htr].
Defined.

(** ** What a run restores, and when *)

Section Restoration.

Context `{Backend}.

Lemma load_auxiliary_raise self w e w1 :
  load_auxiliary self w = (Raise e, w1) ->
  local_modules w1 = local_modules w
  /\ ((makedirs (save_path self) = Raise e /\ rng w1 = rng w)
      \/ (is_ok (makedirs (save_path self)) = true /\ clip_checkpoint = Raise e
          /\ rng w1 = mel_text_clip_init (rng w))
      \/ (is_ok (makedirs (save_path self)) = true /\ is_ok clip_checkpoint = true
          /\ w2v_pretrained = Raise e)).
Proof.
  unfold load_auxiliary, load_projector, load_w2v, build, bind, lift, emit,
    get_local_modules, set_local_modules, ret.
  simpl. destruct (makedirs _).
  - destruct clip_checkpoint.
    + destruct w2v_pretrained; [by inversion 1|].
      inversion 1; subst; simpl. split; [done|]. right. right. done.
    + inversion 1; subst; simpl. split; [done|]. right. left. done.
  - inversion 1; subst; simpl. split; [done|]. left. done.
Qed.

Lemma frame_save_audio_ev {X} (f : World -> X) self name sample sample_rate :
  (forall p sr, ignores_event f (EvSave p sr)) ->
  frame_on f (save_audio self name sample sample_rate).
Proof. intros Hsave. unfold save_audio. frame. Qed.

Lemma frame_eval_example_ev {X} (f : World -> X) self projector w2v i acc :
  (forall p, ignores_event f (EvLoadAudio p)) ->
  (forall p sr, ignores_event f (EvSave p sr)) ->
  (forall audio codes text, frame_on f (call_diffusion_fn self audio codes text)) ->
  frame_on f (eval_example self projector w2v i acc).
Proof.
  intros Hload Hsave Hfn. pose proof (frame_save_audio_ev f self) as Hs.
  unfold eval_example. destruct acc as [[gens reals] losses].
  frame; try (by apply Hs). apply Hfn.
Qed.

Lemma frame_eval_loop_ev {X} (f : World -> X) self projector w2v indices :
  (forall p, ignores_event f (EvLoadAudio p)) ->
  (forall p sr, ignores_event f (EvSave p sr)) ->
  (forall audio codes text, frame_on f (call_diffusion_fn self audio codes text)) ->
  forall acc, frame_on f (eval_loop self projector w2v indices acc).
Proof.
  intros Hload Hsave Hfn. induction indices as [|i rest IH]; intros acc; simpl.
  - apply frame_ret.
  - apply frame_bind; [by apply frame_eval_example_ev|]. intros acc'. apply IH.
Qed.

Lemma all_reduces_app t1 t2 : all_reduces (t1 ++ t2) = (all_reduces t1 + all_reduces t2)%nat.
Proof. unfold all_reduces. by rewrite omap_app, length_app. Qed.

Lemma all_reduces_stable : strategy_stable (fun w => all_reduces (trace w)).
Proof.
  split; [done|]. intros sh w. simpl. rewrite all_reduces_app. simpl.
  unfold all_reduces at 2. simpl. lia.
Qed.

Lemma all_reduces_loop self projector w2v indices acc w r w' :
  eval_loop self projector w2v indices acc w = (r, w') ->
  all_reduces (trace w') = all_reduces (trace w).
Proof.
  apply (frame_run (fun w => all_reduces (trace w))).
  apply frame_eval_loop_ev.
  - intros p w0. simpl. rewrite all_reduces_app. unfold all_reduces at 2. simpl. lia.
  - intros p sr w0. simpl. rewrite all_reduces_app. unfold all_reduces at 2. simpl. lia.
  - intros. apply frame_call_diffusion_fn, all_reduces_stable.
Qed.

Lemma module_cpu_to d (ms : gmap string Module) :
  module_cpu <$> (module_to d <$> ms) = module_cpu <$> ms.
Proof. rewrite <- map_fmap_compose. by apply map_fmap_ext. Qed.

End Restoration.

(** X10.  The outcome of [perform_eval] does not depend on the generator state
    of the caller: started from any other state it returns the same metrics
    or raises the same exception, and leaves the same trace, training flag
    and helper modules.  (Line 211 seeds the generator before anything is
    sampled.) *)
Theorem outcome_independent_of_caller_rng `{Backend} (self : Evaluator) (w : World) (g : Rng) :
  fst (perform_eval self (with_rng g w)) = fst (perform_eval self w)
  /\ trace (snd (perform_eval self (with_rng g w))) = trace (snd (perform_eval self w))
  /\ model_training (snd (perform_eval self (with_rng g w)))
     = model_training (snd (perform_eval self w))
  /\ local_modules (snd (perform_eval self (with_rng g w)))
     = local_modules (snd (perform_eval self w)).
Proof.
  destruct (load_auxiliary self w) as [[[projector w2v]|e] w1] eqn:Haux.
  - pose proof (load_auxiliary_inv _ _ _ _ Haux) as (_ & _ & _ & _ & _ & Hany).
    destruct (Hany g) as [g' Hg].
    rewrite (perform_eval_unfold _ _ _ _ _ Haux), (perform_eval_unfold _ _ _ _ _ Hg).
    change (reseed 5 (with_rng g' w1)) with (reseed 5 w1).
    by destruct (seeded_run _ _ _ _) as [[[fd il]|e] w2].
  - pose proof (load_auxiliary_inv _ _ _ _ Haux) as (_ & _ & _ & _ & _ & Hany).
    destruct (Hany g) as [g' Hg].
    by rewrite (perform_eval_aux_raise _ _ _ _ Haux), (perform_eval_aux_raise _ _ _ _ Hg).
Qed.

(** X11.  When the save directory cannot be created, the checkpoint of the
    projector cannot be read or the ASR model cannot be fetched,
    [perform_eval] raises that exception before line 210: nothing is seeded,
    the model under test keeps its mode, the helper modules stay on their
    devices, the accelerator generators are as before, and nothing was
    loaded, sampled or saved.  The default generator is as the caller left it
    only when it is the directory that failed; when the checkpoint cannot be
    read the CLIP model was already built on line 156, and the generator is
    left advanced by its initialisation. *)
Theorem auxiliary_failure_precedes_seeding `{Backend} (self : Evaluator) (w w1 : World)
    (e : exn) :
  load_auxiliary self w = (Raise e, w1) ->
  perform_eval self w = (Raise e, w1)
  /\ ((makedirs (save_path self) = Raise e /\ rng w1 = rng w)
      \/ (is_ok (makedirs (save_path self)) = true /\ clip_checkpoint = Raise e
          /\ rng w1 = mel_text_clip_init (rng w))
      \/ (is_ok (makedirs (save_path self)) = true /\ is_ok clip_checkpoint = true
          /\ w2v_pretrained = Raise e))
  /\ cuda_rng w1 = cuda_rng w /\ model_training w1 = model_training w
  /\ local_modules w1 = local_modules w
  /\ trace w1 = trace w ++ [EvMakedirs (save_path self)].
Proof.
  intros Haux.
  pose proof (load_auxiliary_raise _ _ _ _ Haux) as [Hmods Hwhy].
  pose proof (load_auxiliary_inv _ _ _ _ Haux) as (Hcuda & Htrain & _ & Htr & _).
  split; [by apply perform_eval_aux_raise|]. done.
Qed.

Lemma auxiliary_failure_precedes_seeding_witness :
  exists w1,
    perform_eval (Toy.offline_evaluator (Some perform_diffusion_vocoder_fn)) Toy.offline_world
      = (Raise OSError, w1)
    /\ cuda_rng w1 = cuda_rng Toy.offline_world
    /\ model_training w1 = true
    /\ local_modules w1 = local_modules Toy.offline_world
    /\ trace w1 = [EvMakedirs "/tmp/test_eval/../audio_eval/558"].
Proof.
  assert (Haux : exists w1,
             load_auxiliary (Toy.offline_evaluator (Some perform_diffusion_vocoder_fn))
                            Toy.offline_world = (Raise OSError, w1)).
  { eexists. reflexivity. }
  destruct Haux as (w1 & Haux). exists w1.
  destruct (auxiliary_failure_precedes_seeding _ _ _ _ Haux)
    as (Hrun & _ & Hcuda & Htrain & Hmods & Htr).
  split; [exact Hrun|]. split; [exact Hcuda|]. split; [exact Htrain|].
  split; [exact Hmods|exact Htr].
Defined.

(** X12.  After a run of [perform_eval] that returns, the evaluator holds the
    same helper modules as before, each of the same kind, and every one of
    them is on the CPU, wherever it was before the run. *)
Theorem modules_back_on_cpu `{Backend} (self : Evaluator) (w w' : World)
    (d : gmap string Tensor) :
  perform_eval self w = (Ok d, w') ->
  local_modules w' = module_cpu <$> local_modules w
  /\ dom (local_modules w') = dom (local_modules w)
  /\ forall key m', local_modules w' !! key = Some m' ->
       on_device m' = "cpu"
       /\ exists m, local_modules w !! key = Some m /\ kind m' = kind m.
Proof.
  intros Hrun.
  apply perform_eval_ok in Hrun as (projector & w2v & w1 & fd & il & w2 & Haux & Hseeded & -> & ->).
  apply load_auxiliary_inv in Haux as (_ & _ & _ & _ & Hmods & _). specialize (Hmods eq_refl).
  pose proof (frame_seeded_rest local_modules _ _ _ _ _ _ modules_ignores_io
                (fun audio codes text =>
                   frame_call_diffusion_fn local_modules self audio codes text modules_stable)
                Hseeded) as Hlm.
  simpl in Hlm. simpl. rewrite Hlm, Hmods, module_cpu_to.
  split; [done|]. split; [by rewrite dom_fmap_L|].
  intros key m'. rewrite lookup_fmap.
  destruct (local_modules w !! key) as [m|]; simpl; [|done].
  intros [= <-]. split; [done|]. by exists m.
Qed.

Lemma modules_back_on_cpu_witness :
  exists d w',
    perform_eval (Toy.evaluator 4 1 0 (Some perform_diffusion_vocoder_fn))
                 (snd (set_local_modules
                         {[ "dvae" := {| kind := Dvae; on_device := "cuda:1" |} ]}
                         (Toy.world0 None)))
      = (Ok d, w')
    /\ local_modules w' = {[ "dvae" := {| kind := Dvae; on_device := "cpu" |} ]}.
Proof.
  assert (Hrun : exists d w',
             perform_eval (Toy.evaluator 4 1 0 (Some perform_diffusion_vocoder_fn))
                          (snd (set_local_modules
                                  {[ "dvae" := {| kind := Dvae; on_device := "cuda:1" |} ]}
                                  (Toy.world0 None))) = (Ok d, w')).
  { vm_compute. do 2 eexists. reflexivity. }
  destruct Hrun as (d & w' & Hrun). exists d, w'. split; [exact Hrun|].
  destruct (modules_back_on_cpu _ _ _ _ Hrun) as (Hmods & _).
  rewrite Hmods. simpl. by rewrite map_fmap_singleton.
Defined.

(** X13.  A run of [perform_eval] that returns has processed at least one
    entry and has stacked one generated projection, one reference projection
    and one loss per index of its slice.  Outside a distributed run the
    metrics it returns are the Frechet distance of the two stacks and the
    mean of the losses; in a distributed run each of the two is reduced over
    the workers and divided by the world size. *)
Theorem metrics_of_a_run `{Backend} (self : Evaluator) (w w' : World)
    (d : gmap string Tensor) :
  perform_eval self w = (Ok d, w') ->
  eval_indices self <> []
  /\ exists gens reals losses fd0,
       length gens = length (eval_indices self)
       /\ length reals = length (eval_indices self)
       /\ length losses = length (eval_indices self)
       /\ compute_frechet_distance (stack gens) (stack reals) = Ok fd0
       /\ if is_distributed (world_size w) then
            exists fd1 il1,
              all_reduce fd0 = Ok fd1
              /\ all_reduce (t_mean (stack losses)) = Ok il1
              /\ d = metrics (t_div_int fd1 (default 1 (world_size w)))
                             (t_div_int il1 (default 1 (world_size w)))
          else d = metrics fd0 (t_mean (stack losses)).
Proof.
  intros Hrun.
  apply perform_eval_ok in Hrun as (projector & w2v & w1 & fd & il & w2 & Haux & Hseeded & -> & ->).
  apply load_auxiliary_inv in Haux as (_ & _ & Hws & _).
  apply seeded_run_ok in Hseeded as ([[gens reals] losses] & w3 & Hloop & Hagg).
  assert (Hws3 : world_size w3 = world_size w1).
  { apply (frame_run world_size _ _ _ _
             (frame_eval_loop world_size self projector w2v _ world_size_ignores_io
                (fun audio codes text =>
                   frame_call_diffusion_fn world_size self audio codes text world_size_stable)
                _) Hloop). }
  apply eval_loop_ok in Hloop as (gs & rs & ls & entries & Hacc & Hgs & Hrs & Hls & _).
  simpl in Hacc. inversion Hacc; subst gs rs ls.
  apply aggregate_ok in Hagg as (Hne & _ & _ & _ & fd0 & Hfd & Hcase).
  rewrite Hws3, Hws in Hcase. split.
  { intros Hnil. rewrite Hnil in Hgs. by destruct gens. }
  exists gens, reals, losses, fd0. repeat split; try done.
  destruct (is_distributed (world_size w)).
  - destruct Hcase as (fd1 & il1 & ? & ? & -> & ->). by exists fd1, il1.
  - by destruct Hcase as [-> ->].
Qed.

Lemma metrics_of_a_run_witness :
  exists d w',
    perform_eval (Toy.evaluator 4 2 1 (Some perform_diffusion_tts_fn)) (Toy.world0 (Some 2))
      = (Ok d, w')
    /\ exists gens reals losses : list Z,
         length gens = 2%nat /\ length reals = 2%nat /\ length losses = 2%nat.
Proof.
  assert (Hrun : exists d w',
             perform_eval (Toy.evaluator 4 2 1 (Some perform_diffusion_tts_fn))
                          (Toy.world0 (Some 2)) = (Ok d, w')).
  { vm_compute. do 2 eexists. reflexivity. }
  destruct Hrun as (d & w' & Hrun). exists d, w'. split; [exact Hrun|].
  destruct (metrics_of_a_run _ _ _ _ Hrun)
    as (_ & gens & reals & losses & fd0 & Hg & Hr & Hl & _).
  exists gens, reals, losses. split; [exact Hg|]. split; [exact Hr|exact Hl].
Defined.

(** X14.  On an empty dataset the loop has nothing to do and the run stops at
    the first [torch.stack] with a [RuntimeError], once the helper models are
    loaded: no audio is loaded, nothing is sampled or saved, and the model is
    left in eval mode with the generator seeded. *)
Theorem empty_dataset_fails `{Backend} (self : Evaluator) (w w1 : World)
    (projector : Tensor -> Res Tensor) (w2v : Tensor -> list Z -> Res Tensor) :
  data self = [] ->
  load_auxiliary self w = (Ok (projector, w2v), w1) ->
  exists w',
    perform_eval self w = (Raise RuntimeError, w')
    /\ trace w' = trace w ++ [EvMakedirs (save_path self)]
    /\ model_training w' = false
    /\ rng w' = seeded 5.
Proof.
  intros Hdata Haux.
  rewrite (perform_eval_unfold _ _ _ _ _ Haux).
  apply load_auxiliary_inv in Haux as (_ & _ & _ & Htr & _).
  unfold seeded_run, eval_indices. rewrite Hdata. simpl.
  unfold py_range, range_len. simpl.
  unfold bind, model_eval, set_model_training, aggregate, lift. simpl.
  eexists. split; [reflexivity|]. simpl. done.
Qed.

Lemma empty_dataset_fails_witness :
  exists w',
    perform_eval (Toy.evaluator 0 1 0 (Some perform_diffusion_tts_fn)) (Toy.world0 None)
      = (Raise RuntimeError, w')
    /\ trace w' = [EvMakedirs "/tmp/test_eval/../audio_eval/558"]
    /\ model_training w' = false
    /\ rng w' = 5.
Proof.
  assert (Haux : exists projector w2v w1,
             load_auxiliary (Toy.evaluator 0 1 0 (Some perform_diffusion_tts_fn))
                            (Toy.world0 None) = (Ok (projector, w2v), w1)).
  { do 3 eexists. reflexivity. }
  destruct Haux as (projector & w2v & w1 & Haux).
  destruct (empty_dataset_fails (Toy.evaluator 0 1 0 (Some perform_diffusion_tts_fn))
              _ _ _ _ eq_refl Haux) as (w' & Hrun & Htr & Htrain & Hrng).
  exists w'. split; [exact Hrun|]. split; [exact Htr|]. split; [exact Htrain|exact Hrng].
Defined.

(** X15.  In a distributed run over a ragged dataset a worker of rank at
    least [len mod ws] never reaches the reductions: whatever happens, its run
    records no [all_reduce].  A worker of the same run that returns has
    reduced exactly twice. *)
Theorem ragged_worker_skips_collective `{Backend} (len ws : Z) :
  0 <= len -> 1 < ws -> len mod ws <> 0 ->
  (forall self w0 r,
     len mod ws <= r < ws ->
     Z.of_nat (length (data self)) = len -> skip self = ws -> rank (env self) = r ->
     all_reduces (trace (snd (perform_eval self w0))) = all_reduces (trace w0))
  /\ (forall self w0 d w',
        world_size w0 = Some ws ->
        perform_eval self w0 = (Ok d, w') ->
        all_reduces (trace w') = (all_reduces (trace w0) + 2)%nat).
Proof.
  intros Hlen Hws Hm. split.
  - intros self w0 r Hr Hdata Hskip Hrank.
    destruct (ragged_overrun len ws r Hlen ltac:(lia) Hm ltac:(lia)) as [Hin Hover].
    assert (Hi : len - len mod ws ∈ eval_indices self).
    { unfold eval_indices. by rewrite Hdata, Hskip. }
    destruct (load_auxiliary self w0) as [[[projector w2v]|e] w1] eqn:Haux.
    + pose proof (load_auxiliary_inv _ _ _ _ Haux) as (_ & _ & _ & Htr & _).
      rewrite (perform_eval_unfold _ _ _ _ _ Haux).
      destruct (seeded_run self projector w2v (reseed 5 w1)) as [res w2] eqn:Hseeded.
      apply seeded_run_inv in Hseeded as (racc & w3 & Hloop & Hrest).
      pose proof (all_reduces_loop _ _ _ _ _ _ _ _ Hloop) as Hsame. simpl in Hsame.
      destruct racc as [acc|e].
      * pose proof (eval_loop_ok_in_range _ _ _ _ _ _ _ _ _ Hloop Hi). lia.
      * destruct Hrest as [-> ->]. simpl. rewrite Hsame, Htr, all_reduces_app.
        unfold all_reduces at 2. simpl. lia.
    + pose proof (load_auxiliary_inv _ _ _ _ Haux) as (_ & _ & _ & Htr & _).
      rewrite (perform_eval_aux_raise _ _ _ _ Haux). simpl.
      rewrite Htr, all_reduces_app. unfold all_reduces at 2. simpl. lia.
  - intros self w0 d w' Hws0 Hrun.
    apply perform_eval_ok in Hrun
      as (projector & w2v & w1 & fd & il & w2 & Haux & Hseeded & -> & ->).
    apply load_auxiliary_inv in Haux as (_ & _ & Hws1 & Htr & _).
    apply seeded_run_ok in Hseeded as ([[gens reals] losses] & w3 & Hloop & Hagg).
    pose proof (all_reduces_loop _ _ _ _ _ _ _ _ Hloop) as Hsame. simpl in Hsame.
    assert (Hws3 : world_size w3 = world_size w1).
    { apply (frame_run world_size _ _ _ _
               (frame_eval_loop world_size self projector w2v _ world_size_ignores_io
                  (fun audio codes text =>
                     frame_call_diffusion_fn world_size self audio codes text
                       world_size_stable)
                  _) Hloop). }
    apply aggregate_ok in Hagg as (_ & _ & _ & Htr2 & _).
    simpl. rewrite Htr2, all_reduces_app, Hsame, Htr, all_reduces_app, Hws3, Hws1, Hws0.
    unfold reduce_trace, is_distributed.
    destruct (Z.ltb_spec 1 ws); [|lia]. unfold all_reduces at 2 3. simpl. lia.
Qed.

Lemma ragged_worker_skips_collective_witness :
  all_reduces (trace (snd (perform_eval (Toy.evaluator 5 2 1 (Some perform_diffusion_tts_fn))
                                        (Toy.world0 (Some 2))))) = 0%nat
  /\ all_reduces (trace (snd (perform_eval (Toy.evaluator 5 2 0 (Some perform_diffusion_tts_fn))
                                           (Toy.world0 (Some 2))))) = 2%nat.
Proof.
  destruct (@ragged_worker_skips_collective Toy.backend 5 2 ltac:(lia) ltac:(lia)
              ltac:(change (5 mod 2) with 1; lia)) as [Hskip Hdone].
  split.
  - apply (Hskip (Toy.evaluator 5 2 1 (Some perform_diffusion_tts_fn)) (Toy.world0 (Some 2)) 1);
      [change (5 mod 2) with 1; lia | reflexivity | reflexivity | reflexivity].
  - assert (Hrun : exists d w',
               perform_eval (Toy.evaluator 5 2 0 (Some perform_diffusion_tts_fn))
                            (Toy.world0 (Some 2)) = (Ok d, w')).
    { vm_compute. do 2 eexists. reflexivity. }
    destruct Hrun as (d & w' & Hrun). rewrite Hrun. simpl.
    apply (Hdone (Toy.evaluator 5 2 0 (Some perform_diffusion_tts_fn))
                 (Toy.world0 (Some 2)) d w' eq_refl Hrun).
Defined.

(** ** The names of the saved files *)

Section FileNames.

Lemma plain_pretty_N_go (x : N) : forall s, plain s -> plain (pretty_N_go x s).
Proof.
  induction (N.lt_wf_0 x) as [x _ IH]; intros s Hs.
  assert (x = 0 \/ 0 < x)%N as [->|Hpos] by lia.
  - by rewrite pretty_N_go_0.
  - rewrite pretty_N_go_step by done. apply IH; [by apply N.div_lt|].
    simpl. split; [|split; [|done]]; unfold pretty_N_char; by repeat case_match.
Qed.

Lemma plain_str (z : Z) : plain (str z).
Proof.
  unfold str, pretty, pretty_Z. destruct z as [|x|x].
  - simpl. done.
  - unfold pretty, pretty_positive, pretty, pretty_N.
    case_decide; [done|]. by apply plain_pretty_N_go.
  - simpl. split; [done|]. split; [done|].
    unfold pretty, pretty_positive, pretty, pretty_N.
    case_decide; [done|]. by apply plain_pretty_N_go.
Qed.

Lemma split_at_underscore (s1 : string) : forall s2 t1 t2,
  plain s1 -> plain s2 ->
  s1 +:+ String "_" t1 = s2 +:+ String "_" t2 -> s1 = s2 /\ t1 = t2.
Proof.
  induction s1 as [|c s1 IH]; intros [|c' s2] t1 t2 H1 H2 Heq; simpl in *.
  - by inversion Heq.
  - inversion Heq; subst. by destruct H2 as [? _].
  - inversion Heq; subst. by destruct H1 as [? _].
  - inversion Heq; subst.
    destruct H1 as (_ & _ & H1), H2 as (_ & _ & H2).
    destruct (IH s2 t1 t2 H1 H2) as [-> ->]; done.
Qed.

Lemma name_not_absolute (s t : string) :
  plain s -> String.prefix "/" (s +:+ String "_" t) = false.
Proof.
  destruct s as [|c s]; [done|]. intros (_ & Hc & _).
  change (String.prefix "/" (String c s +:+ String "_" t))
    with (if ascii_dec "/" c then String.prefix "" (s +:+ String "_" t) else false).
  destruct (ascii_dec "/" c) as [Heq|]; [by destruct Hc|done].
Qed.

Lemma join_name_inj (sp n1 n2 : string) :
  String.prefix "/" n1 = false -> String.prefix "/" n2 = false ->
  osp_join sp [n1] = osp_join sp [n2] -> n1 = n2.
Proof.
  intros H1 H2. unfold osp_join, join2. simpl. rewrite H1, H2.
  destruct (bool_decide (sp = "") || ends_with_slash sp); intros Heq.
  - by apply (inj (String.app sp)) in Heq.
  - apply (inj (String.app sp)) in Heq. by inversion Heq.
Qed.

Lemma name_inj (r1 i1 r2 i2 : Z) (ext1 ext2 : string) :
  str r1 +:+ "_" +:+ str i1 +:+ String "_" ext1
  = str r2 +:+ "_" +:+ str i2 +:+ String "_" ext2 ->
  r1 = r2 /\ i1 = i2 /\ ext1 = ext2.
Proof.
  intros Heq.
  apply split_at_underscore in Heq as [Hr Heq]; try apply plain_str.
  apply split_at_underscore in Heq as [Hi Hext]; try apply plain_str.
  unfold str in Hr, Hi. apply (inj pretty) in Hr. apply (inj pretty) in Hi. done.
Qed.

End FileNames.

(** X16.  The files a run writes never collide: under one save path, the
    generated (resp. reference) files of two examples have the same path only
    when rank and index are the same, and a generated file never has the path
    of a reference file. *)
Theorem saved_paths_distinct (sp : string) (r1 i1 r2 i2 : Z) :
  (osp_join sp [gen_name r1 i1] = osp_join sp [gen_name r2 i2] -> r1 = r2 /\ i1 = i2)
  /\ (osp_join sp [real_name r1 i1] = osp_join sp [real_name r2 i2] -> r1 = r2 /\ i1 = i2)
  /\ osp_join sp [gen_name r1 i1] <> osp_join sp [real_name r2 i2].
Proof.
  assert (Habs : forall r i ext,
             String.prefix "/" (str r +:+ "_" +:+ str i +:+ String "_" ext) = false).
  { intros r i ext. apply (name_not_absolute (str r)), plain_str. }
  split; [|split].
  - intros Heq. apply join_name_inj in Heq; [|apply Habs..].
    by apply name_inj in Heq as (? & ? & _).
  - intros Heq. apply join_name_inj in Heq; [|apply Habs..].
    by apply name_inj in Heq as (? & ? & _).
  - intros Heq. apply join_name_inj in Heq; [|apply Habs..].
    by apply name_inj in Heq as (_ & _ & ?).
Qed.
